(** * Schema of the portfolio tracker (app/models.py)

    The module under study is a declarative schema: every class is a flat
    list of annotated fields, each optionally carrying a [Field(...)] call
    with keyword arguments (default, max_length, regex, decimal_places,
    primary_key, ...).  The embedding keeps that shape: a class is a record
    holding its name, its [table] flag and the list of its field
    declarations, written in the order and with the keyword arguments of the
    source.

    Two operations build an instance from keyword data.  [validate] is the
    validation of the data against a class ([Model.model_validate]): it
    applies the declared defaults, checks what the validator derives from
    the declarations and gives either the instance or the list of errors,
    one per failing field.  [construct] is the call of the class itself
    ([Model(...)]): for a plain schema it is that validation; for a class
    declared with [table=True] it validates nothing.

    Python values are modelled by the inductive [value]; a [str] is a
    [string] whose characters are the code points below 256; a [Decimal] is
    a finite decimal, coefficient and exponent; [datetime.utcnow] reads a
    clock that is passed in. *)

From Stdlib Require Import ZArith String Ascii List Bool Lia.
From stdpp Require Import gmap strings list fin_maps.

Import ListNotations.
#[local] Set Warnings "-register-all".

Local Open Scope string_scope.
Local Open Scope Z_scope.

(** ** Enumerations (models.py, lines 8-17) *)

Inductive AlertType := PRICE_ABOVE | PRICE_BELOW | PERCENT_CHANGE.

Inductive AlertStatus := ACTIVE | TRIGGERED | DISABLED.

Definition AlertType_value (a : AlertType) : string :=
  match a with
  | PRICE_ABOVE => "price_above"
  | PRICE_BELOW => "price_below"
  | PERCENT_CHANGE => "percent_change"
  end.

Definition AlertStatus_value (s : AlertStatus) : string :=
  match s with
  | ACTIVE => "active"
  | TRIGGERED => "triggered"
  | DISABLED => "disabled"
  end.

Definition AlertType_members : list AlertType :=
  [PRICE_ABOVE; PRICE_BELOW; PERCENT_CHANGE].

Definition AlertStatus_members : list AlertStatus :=
  [ACTIVE; TRIGGERED; DISABLED].

(** Lookup of a member by its value, as [AlertType("price_above")] does. *)
Definition AlertType_of_value (s : string) : option AlertType :=
  List.find (fun a => String.eqb (AlertType_value a) s) AlertType_members.

Definition AlertStatus_of_value (s : string) : option AlertStatus :=
  List.find (fun a => String.eqb (AlertStatus_value a) s) AlertStatus_members.

(** ** Values and type annotations *)

(** A finite [decimal.Decimal]: the number [coefficient * 10 ^ exponent].
    [Decimal("150.00")] is [{| coefficient := 15000; exponent := -2 |}]. *)
Record Decimal := { coefficient : Z; exponent : Z }.

Inductive value :=
| VNone
| VInt (n : Z)
| VBool (b : bool)
| VStr (s : string)
| VDecimal (d : Decimal)
| VDatetime (t : Z)
| VAlertType (a : AlertType)
| VAlertStatus (s : AlertStatus)
| VList (l : list value)
| VDict (d : list (string * value)).

Inductive ty :=
| TInt
| TStr
| TBool
| TDecimal
| TDatetime
| TAlertType
| TAlertStatus
| TAny
| TOptional (t : ty)
| TList (t : ty)
| TDict (k v : ty).

(** ** Patterns

    The [regex] keyword holds a pattern in the syntax of Python's [re].  The
    fragment the schema uses is parsed here: the anchors [^] and [$],
    character classes with ranges, escaped literals, [.] and the postfix
    quantifiers [+], [*] and [?]. *)

Inductive quantifier := One | OneOrMore | ZeroOrMore | ZeroOrOne.

(** A character set is a list of inclusive ranges of code points. *)
Definition charset := list (N * N).

Record piece := { chars : charset; quant : quantifier }.

Record pattern := {
  anchored_start : bool;
  pieces : list piece;
  anchored_end : bool
}.

Definition code (c : ascii) : N := N_of_ascii c.

Definition single (c : ascii) : N * N := (code c, code c).

(** [.] matches every character but the newline. *)
Definition any_char : charset := [(0, 9); (11, 255)]%N.

Definition in_charset (cs : charset) (c : ascii) : bool :=
  existsb (fun r => (fst r <=? code c)%N && (code c <=? snd r)%N) cs.

(** The items of a class, after the opening bracket: the class and what
    follows the closing bracket.  [x-y] is a range unless [y] would be the
    closing bracket, in which case the hyphen is a literal. *)
Fixpoint parse_class (s : list ascii) (acc : charset) : option (charset * list ascii) :=
  match s with
  | [] => None
  | "]"%char :: rest => Some (List.rev acc, rest)
  | "\"%char :: c :: rest => parse_class rest (single c :: acc)
  | c :: rest =>
      match rest with
      | "-"%char :: d :: rest' =>
          if Ascii.eqb d "]" then parse_class rest (single c :: acc)
          else parse_class rest' ((code c, code d) :: acc)
      | _ => parse_class rest (single c :: acc)
      end
  end.

Definition is_meta (c : ascii) : bool :=
  existsb (Ascii.eqb c) ["("; ")"; "|"; "{"; "}"; "^"; "$"; "*"; "+"; "?"; "]"]%char.

(** One atom at the head of [s]: its character set and what follows. *)
Definition parse_atom (s : list ascii) : option (charset * list ascii) :=
  match s with
  | [] => None
  | "["%char :: rest => parse_class rest []
  | "\"%char :: c :: rest =>
      if is_meta c || Ascii.eqb c "." || Ascii.eqb c "\" || Ascii.eqb c "["
         || Ascii.eqb c "-" || Ascii.eqb c "@"
      then Some ([single c], rest) else None
  | "."%char :: rest => Some (any_char, rest)
  | c :: rest => if is_meta c then None else Some ([single c], rest)
  end.

Definition parse_quant (s : list ascii) : quantifier * list ascii :=
  match s with
  | "+"%char :: rest => (OneOrMore, rest)
  | "*"%char :: rest => (ZeroOrMore, rest)
  | "?"%char :: rest => (ZeroOrOne, rest)
  | _ => (One, s)
  end.

(** The sequence of quantified atoms up to the end of the pattern or a
    final [$].  [fuel] bounds the number of atoms; the length of the pattern
    is always enough. *)
Fixpoint parse_pieces (fuel : nat) (s : list ascii) : option (list piece * bool) :=
  match s with
  | [] => Some ([], false)
  | ["$"%char] => Some ([], true)
  | _ =>
      match fuel with
      | O => None
      | S fuel' =>
          match parse_atom s with
          | None => None
          | Some (cs, rest) =>
              let (q, rest') := parse_quant rest in
              match parse_pieces fuel' rest' with
              | None => None
              | Some (ps, e) => Some ({| chars := cs; quant := q |} :: ps, e)
              end
          end
      end
  end.

Definition parse_pattern (src : string) : option pattern :=
  let s := list_ascii_of_string src in
  let (a, body) :=
    match s with
    | "^"%char :: rest => (true, rest)
    | _ => (false, s)
    end in
  match parse_pieces (List.length s) body with
  | None => None
  | Some (ps, e) =>
      Some {| anchored_start := a; pieces := ps; anchored_end := e |}
  end.

(** [$] matches at the end of the string and just before a newline that ends
    the string. *)
Definition at_end (anchored : bool) (s : list ascii) : bool :=
  if anchored then
    match s with
    | [] => true
    | [c] => Ascii.eqb c "010"
    | _ => false
    end
  else true.

(** One character of the set, then [next]. *)
Definition match_one (cs : charset) (next : list ascii -> bool)
    (s : list ascii) : bool :=
  match s with
  | c :: s' => in_charset cs c && next s'
  | [] => false
  end.

(** Any number of characters of the set, then [next]: every split is tried,
    so the answer does not depend on greediness. *)
Fixpoint match_star (cs : charset) (next : list ascii -> bool)
    (s : list ascii) : bool :=
  next s ||
  match s with
  | c :: s' => in_charset cs c && match_star cs next s'
  | [] => false
  end.

(** Does a prefix of [s] match the pieces, the rest satisfying [k]? *)
Fixpoint match_pieces (ps : list piece) (k : list ascii -> bool)
    (s : list ascii) : bool :=
  match ps with
  | [] => k s
  | p :: ps' =>
      let next := match_pieces ps' k in
      match quant p with
      | One => match_one (chars p) next s
      | ZeroOrOne => next s || match_one (chars p) next s
      | ZeroOrMore => match_star (chars p) next s
      | OneOrMore => match_one (chars p) (match_star (chars p) next) s
      end
  end.

(** [re.match]: the pattern is tried at the start of the string. *)
Definition re_match (p : pattern) (s : string) : bool :=
  match_pieces (pieces p) (at_end (anchored_end p)) (list_ascii_of_string s).

(** A pattern that does not parse matches nothing. *)
Definition pattern_matches (src : string) (s : string) : bool :=
  match parse_pattern src with
  | Some p => re_match p s
  | None => false
  end.

(** ** Field declarations

    A field is declared as [name: annotation] or as
    [name: annotation = Field(keyword=..., ...)].  The keywords are kept as
    written, in a list. *)

Inductive field_arg :=
| default (v : value)
| default_factory_utcnow
| primary_key (b : bool)
| foreign_key (target : string)
| unique (b : bool)
| index (b : bool)
| max_length (n : nat)
| regex (src : string)
| decimal_places (n : nat)
| sa_column_JSON.

Record FieldInfo := {
  name : string;
  annotation : ty;
  args : list field_arg
}.

(** [name: annotation = Field(args)] *)
Definition Field (n : string) (t : ty) (a : list field_arg) : FieldInfo :=
  {| name := n; annotation := t; args := a |}.

(** [name: annotation], with no [Field] call. *)
Definition Bare (n : string) (t : ty) : FieldInfo :=
  {| name := n; annotation := t; args := [] |}.

(** [attr: annotation = Relationship(back_populates=...)] *)
Record RelationshipInfo := {
  attr : string;
  target : string;
  to_many : bool;
  back_populates : string
}.

Record Model := {
  cls_name : string;
  table : bool;
  tablename : option string;
  fields : list FieldInfo;
  relationships : list RelationshipInfo
}.

Definition Relationship (a : string) (many : bool) (t bp : string) : RelationshipInfo :=
  {| attr := a; target := t; to_many := many; back_populates := bp |}.

Definition Decimal_0 : value := VDecimal {| coefficient := 0; exponent := 0 |}.

(** ** Persistent models (models.py, lines 21-188) *)

Definition User : Model := {|
  cls_name := "User"; table := true; tablename := Some "users";
  fields := [
    Field "id" (TOptional TInt) [default VNone; primary_key true];
    Field "username" TStr [max_length 50; unique true];
    Field "email" TStr [unique true; max_length 255;
      regex "^[a-zA-Z0-9_.+-]+@[a-zA-Z0-9-]+\.[a-zA-Z0-9-.]+$"];
    Field "full_name" TStr [max_length 100];
    Field "is_active" TBool [default (VBool true)];
    Field "created_at" TDatetime [default_factory_utcnow];
    Field "updated_at" TDatetime [default_factory_utcnow]
  ];
  relationships := [
    Relationship "portfolios" true "Portfolio" "user";
    Relationship "price_alerts" true "PriceAlert" "user"
  ]
|}.

Definition Stock : Model := {|
  cls_name := "Stock"; table := true; tablename := Some "stocks";
  fields := [
    Field "id" (TOptional TInt) [default VNone; primary_key true];
    Field "symbol" TStr [max_length 10; unique true; index true];
    Field "name" TStr [max_length 200];
    Field "exchange" TStr [max_length 50];
    Field "sector" TStr [max_length 100; default (VStr "")];
    Field "industry" TStr [max_length 100; default (VStr "")];
    Field "market_cap" (TOptional TDecimal) [default VNone; decimal_places 2];
    Field "current_price" TDecimal [decimal_places 4; default Decimal_0];
    Field "previous_close" TDecimal [decimal_places 4; default Decimal_0];
    Field "day_change" TDecimal [decimal_places 4; default Decimal_0];
    Field "day_change_percent" TDecimal [decimal_places 4; default Decimal_0];
    Field "volume" TInt [default (VInt 0)];
    Field "avg_volume" TInt [default (VInt 0)];
    Field "pe_ratio" (TOptional TDecimal) [default VNone; decimal_places 2];
    Field "dividend_yield" (TOptional TDecimal) [default VNone; decimal_places 4];
    Field "fifty_two_week_high" (TOptional TDecimal) [default VNone; decimal_places 4];
    Field "fifty_two_week_low" (TOptional TDecimal) [default VNone; decimal_places 4];
    Field "last_updated" TDatetime [default_factory_utcnow];
    Field "created_at" TDatetime [default_factory_utcnow]
  ];
  relationships := [
    Relationship "portfolio_holdings" true "PortfolioHolding" "stock";
    Relationship "price_history" true "StockPriceHistory" "stock";
    Relationship "price_alerts" true "PriceAlert" "stock"
  ]
|}.

Definition Portfolio : Model := {|
  cls_name := "Portfolio"; table := true; tablename := Some "portfolios";
  fields := [
    Field "id" (TOptional TInt) [default VNone; primary_key true];
    Field "name" TStr [max_length 100];
    Field "description" TStr [max_length 500; default (VStr "")];
    Field "user_id" TInt [foreign_key "users.id"];
    Field "total_value" TDecimal [decimal_places 2; default Decimal_0];
    Field "total_cost" TDecimal [decimal_places 2; default Decimal_0];
    Field "total_gain_loss" TDecimal [decimal_places 2; default Decimal_0];
    Field "total_gain_loss_percent" TDecimal [decimal_places 4; default Decimal_0];
    Field "is_default" TBool [default (VBool false)];
    Field "created_at" TDatetime [default_factory_utcnow];
    Field "updated_at" TDatetime [default_factory_utcnow]
  ];
  relationships := [
    Relationship "user" false "User" "portfolios";
    Relationship "holdings" true "PortfolioHolding" "portfolio"
  ]
|}.

Definition PortfolioHolding : Model := {|
  cls_name := "PortfolioHolding"; table := true;
  tablename := Some "portfolio_holdings";
  fields := [
    Field "id" (TOptional TInt) [default VNone; primary_key true];
    Field "portfolio_id" TInt [foreign_key "portfolios.id"];
    Field "stock_id" TInt [foreign_key "stocks.id"];
    Field "quantity" TDecimal [decimal_places 8; default Decimal_0];
    Field "average_cost" TDecimal [decimal_places 4; default Decimal_0];
    Field "total_cost" TDecimal [decimal_places 2; default Decimal_0];
    Field "current_value" TDecimal [decimal_places 2; default Decimal_0];
    Field "gain_loss" TDecimal [decimal_places 2; default Decimal_0];
    Field "gain_loss_percent" TDecimal [decimal_places 4; default Decimal_0];
    Field "created_at" TDatetime [default_factory_utcnow];
    Field "updated_at" TDatetime [default_factory_utcnow]
  ];
  relationships := [
    Relationship "portfolio" false "Portfolio" "holdings";
    Relationship "stock" false "Stock" "portfolio_holdings";
    Relationship "transactions" true "Transaction" "holding"
  ]
|}.

Definition Transaction : Model := {|
  cls_name := "Transaction"; table := true; tablename := Some "transactions";
  fields := [
    Field "id" (TOptional TInt) [default VNone; primary_key true];
    Field "holding_id" TInt [foreign_key "portfolio_holdings.id"];
    Field "transaction_type" TStr [max_length 10];
    Field "quantity" TDecimal [decimal_places 8];
    Field "price" TDecimal [decimal_places 4];
    Field "total_amount" TDecimal [decimal_places 2];
    Field "fees" TDecimal [decimal_places 2; default Decimal_0];
    Field "notes" TStr [max_length 500; default (VStr "")];
    Field "transaction_date" TDatetime [default_factory_utcnow];
    Field "created_at" TDatetime [default_factory_utcnow]
  ];
  relationships := [
    Relationship "holding" false "PortfolioHolding" "transactions"
  ]
|}.

Definition StockPriceHistory : Model := {|
  cls_name := "StockPriceHistory"; table := true;
  tablename := Some "stock_price_history";
  fields := [
    Field "id" (TOptional TInt) [default VNone; primary_key true];
    Field "stock_id" TInt [foreign_key "stocks.id"];
    Field "date" TDatetime [index true];
    Field "open_price" TDecimal [decimal_places 4];
    Field "high_price" TDecimal [decimal_places 4];
    Field "low_price" TDecimal [decimal_places 4];
    Field "close_price" TDecimal [decimal_places 4];
    Field "volume" TInt [default (VInt 0)];
    Field "adjusted_close" (TOptional TDecimal) [default VNone; decimal_places 4];
    Field "created_at" TDatetime [default_factory_utcnow]
  ];
  relationships := [
    Relationship "stock" false "Stock" "price_history"
  ]
|}.

Definition PriceAlert : Model := {|
  cls_name := "PriceAlert"; table := true; tablename := Some "price_alerts";
  fields := [
    Field "id" (TOptional TInt) [default VNone; primary_key true];
    Field "user_id" TInt [foreign_key "users.id"];
    Field "stock_id" TInt [foreign_key "stocks.id"];
    Field "alert_type" TAlertType [default (VAlertType PRICE_ABOVE)];
    Field "target_price" (TOptional TDecimal) [default VNone; decimal_places 4];
    Field "target_percentage" (TOptional TDecimal) [default VNone; decimal_places 2];
    Field "status" TAlertStatus [default (VAlertStatus ACTIVE)];
    Field "message" TStr [max_length 500; default (VStr "")];
    Field "triggered_at" (TOptional TDatetime) [default VNone];
    Field "triggered_price" (TOptional TDecimal) [default VNone; decimal_places 4];
    Field "created_at" TDatetime [default_factory_utcnow];
    Field "updated_at" TDatetime [default_factory_utcnow]
  ];
  relationships := [
    Relationship "user" false "User" "price_alerts";
    Relationship "stock" false "Stock" "price_alerts"
  ]
|}.

Definition WatchList : Model := {|
  cls_name := "WatchList"; table := true; tablename := Some "watch_lists";
  fields := [
    Field "id" (TOptional TInt) [default VNone; primary_key true];
    Field "user_id" TInt [foreign_key "users.id"];
    Field "name" TStr [max_length 100];
    Field "description" TStr [max_length 500; default (VStr "")];
    Field "stock_symbols" (TList TStr) [default (VList []); sa_column_JSON];
    Field "is_default" TBool [default (VBool false)];
    Field "created_at" TDatetime [default_factory_utcnow];
    Field "updated_at" TDatetime [default_factory_utcnow]
  ];
  relationships := []
|}.

Definition MarketIndex : Model := {|
  cls_name := "MarketIndex"; table := true; tablename := Some "market_indices";
  fields := [
    Field "id" (TOptional TInt) [default VNone; primary_key true];
    Field "symbol" TStr [max_length 10; unique true];
    Field "name" TStr [max_length 100];
    Field "current_value" TDecimal [decimal_places 4; default Decimal_0];
    Field "previous_close" TDecimal [decimal_places 4; default Decimal_0];
    Field "day_change" TDecimal [decimal_places 4; default Decimal_0];
    Field "day_change_percent" TDecimal [decimal_places 4; default Decimal_0];
    Field "last_updated" TDatetime [default_factory_utcnow];
    Field "created_at" TDatetime [default_factory_utcnow]
  ];
  relationships := []
|}.

(** ** Non-persistent schemas (models.py, lines 192-308) *)

Definition UserCreate : Model := {|
  cls_name := "UserCreate"; table := false; tablename := None;
  fields := [
    Field "username" TStr [max_length 50];
    Field "email" TStr [max_length 255];
    Field "full_name" TStr [max_length 100]
  ];
  relationships := []
|}.

Definition UserUpdate : Model := {|
  cls_name := "UserUpdate"; table := false; tablename := None;
  fields := [
    Field "username" (TOptional TStr) [default VNone; max_length 50];
    Field "email" (TOptional TStr) [default VNone; max_length 255];
    Field "full_name" (TOptional TStr) [default VNone; max_length 100];
    Field "is_active" (TOptional TBool) [default VNone]
  ];
  relationships := []
|}.

Definition StockCreate : Model := {|
  cls_name := "StockCreate"; table := false; tablename := None;
  fields := [
    Field "symbol" TStr [max_length 10];
    Field "name" TStr [max_length 200];
    Field "exchange" TStr [max_length 50];
    Field "sector" TStr [max_length 100; default (VStr "")];
    Field "industry" TStr [max_length 100; default (VStr "")]
  ];
  relationships := []
|}.

Definition StockUpdate : Model := {|
  cls_name := "StockUpdate"; table := false; tablename := None;
  fields := [
    Field "name" (TOptional TStr) [default VNone; max_length 200];
    Field "sector" (TOptional TStr) [default VNone; max_length 100];
    Field "industry" (TOptional TStr) [default VNone; max_length 100];
    Field "current_price" (TOptional TDecimal) [default VNone; decimal_places 4];
    Field "market_cap" (TOptional TDecimal) [default VNone; decimal_places 2]
  ];
  relationships := []
|}.

Definition PortfolioCreate : Model := {|
  cls_name := "PortfolioCreate"; table := false; tablename := None;
  fields := [
    Field "name" TStr [max_length 100];
    Field "description" TStr [max_length 500; default (VStr "")];
    Bare "user_id" TInt;
    Field "is_default" TBool [default (VBool false)]
  ];
  relationships := []
|}.

Definition PortfolioUpdate : Model := {|
  cls_name := "PortfolioUpdate"; table := false; tablename := None;
  fields := [
    Field "name" (TOptional TStr) [default VNone; max_length 100];
    Field "description" (TOptional TStr) [default VNone; max_length 500];
    Field "is_default" (TOptional TBool) [default VNone]
  ];
  relationships := []
|}.

Definition TransactionCreate : Model := {|
  cls_name := "TransactionCreate"; table := false; tablename := None;
  fields := [
    Bare "holding_id" TInt;
    Field "transaction_type" TStr [max_length 10];
    Field "quantity" TDecimal [decimal_places 8];
    Field "price" TDecimal [decimal_places 4];
    Field "fees" TDecimal [decimal_places 2; default Decimal_0];
    Field "notes" TStr [max_length 500; default (VStr "")];
    Field "transaction_date" (TOptional TDatetime) [default VNone]
  ];
  relationships := []
|}.

Definition PriceAlertCreate : Model := {|
  cls_name := "PriceAlertCreate"; table := false; tablename := None;
  fields := [
    Bare "user_id" TInt;
    Bare "stock_id" TInt;
    Field "alert_type" TAlertType [default (VAlertType PRICE_ABOVE)];
    Field "target_price" (TOptional TDecimal) [default VNone; decimal_places 4];
    Field "target_percentage" (TOptional TDecimal) [default VNone; decimal_places 2];
    Field "message" TStr [max_length 500; default (VStr "")]
  ];
  relationships := []
|}.

Definition PriceAlertUpdate : Model := {|
  cls_name := "PriceAlertUpdate"; table := false; tablename := None;
  fields := [
    Field "alert_type" (TOptional TAlertType) [default VNone];
    Field "target_price" (TOptional TDecimal) [default VNone; decimal_places 4];
    Field "target_percentage" (TOptional TDecimal) [default VNone; decimal_places 2];
    Field "status" (TOptional TAlertStatus) [default VNone];
    Field "message" (TOptional TStr) [default VNone; max_length 500]
  ];
  relationships := []
|}.

Definition WatchListCreate : Model := {|
  cls_name := "WatchListCreate"; table := false; tablename := None;
  fields := [
    Bare "user_id" TInt;
    Field "name" TStr [max_length 100];
    Field "description" TStr [max_length 500; default (VStr "")];
    Field "stock_symbols" (TList TStr) [default (VList [])];
    Field "is_default" TBool [default (VBool false)]
  ];
  relationships := []
|}.

Definition WatchListUpdate : Model := {|
  cls_name := "WatchListUpdate"; table := false; tablename := None;
  fields := [
    Field "name" (TOptional TStr) [default VNone; max_length 100];
    Field "description" (TOptional TStr) [default VNone; max_length 500];
    Field "stock_symbols" (TOptional (TList TStr)) [default VNone];
    Field "is_default" (TOptional TBool) [default VNone]
  ];
  relationships := []
|}.

Definition StockPriceHistoryCreate : Model := {|
  cls_name := "StockPriceHistoryCreate"; table := false; tablename := None;
  fields := [
    Bare "stock_id" TInt;
    Bare "date" TDatetime;
    Field "open_price" TDecimal [decimal_places 4];
    Field "high_price" TDecimal [decimal_places 4];
    Field "low_price" TDecimal [decimal_places 4];
    Field "close_price" TDecimal [decimal_places 4];
    Field "volume" TInt [default (VInt 0)];
    Field "adjusted_close" (TOptional TDecimal) [default VNone; decimal_places 4]
  ];
  relationships := []
|}.

Definition PortfolioSummary : Model := {|
  cls_name := "PortfolioSummary"; table := false; tablename := None;
  fields := [
    Bare "portfolio_id" TInt;
    Bare "portfolio_name" TStr;
    Bare "total_value" TDecimal;
    Bare "total_cost" TDecimal;
    Bare "total_gain_loss" TDecimal;
    Bare "total_gain_loss_percent" TDecimal;
    Bare "holdings_count" TInt;
    Field "top_performers" (TList (TDict TStr TAny)) [default (VList [])];
    Field "worst_performers" (TList (TDict TStr TAny)) [default (VList [])]
  ];
  relationships := []
|}.

Definition StockQuote : Model := {|
  cls_name := "StockQuote"; table := false; tablename := None;
  fields := [
    Bare "symbol" TStr;
    Bare "name" TStr;
    Bare "current_price" TDecimal;
    Bare "day_change" TDecimal;
    Bare "day_change_percent" TDecimal;
    Bare "volume" TInt;
    Field "market_cap" (TOptional TDecimal) [default VNone];
    Field "pe_ratio" (TOptional TDecimal) [default VNone];
    Bare "last_updated" TDatetime
  ];
  relationships := []
|}.

(** Every class of the module, in source order. *)
Definition models : list Model := [
  User; Stock; Portfolio; PortfolioHolding; Transaction; StockPriceHistory;
  PriceAlert; WatchList; MarketIndex;
  UserCreate; UserUpdate; StockCreate; StockUpdate; PortfolioCreate;
  PortfolioUpdate; TransactionCreate; PriceAlertCreate; PriceAlertUpdate;
  WatchListCreate; WatchListUpdate; StockPriceHistoryCreate;
  PortfolioSummary; StockQuote
].

Definition has_suffix (suffix s : string) : bool :=
  let n := String.length s in
  let k := String.length suffix in
  (k <=? n)%nat && String.eqb (String.substring (n - k) k s) suffix.

(** The persistent entities are the classes declared with [table=True]; the
    Create and Update shapes are told by their names. *)
Definition persistent_models : list Model := List.filter table models.

Definition create_shapes : list Model :=
  List.filter (fun m => has_suffix "Create" (cls_name m)) models.

Definition update_shapes : list Model :=
  List.filter (fun m => has_suffix "Update" (cls_name m)) models.

Definition find_model (n : string) : option Model :=
  List.find (fun m => String.eqb (cls_name m) n) models.

(** The Update shape of an entity [E] is the class named [EUpdate]. *)
Definition update_shape_of (m : Model) : option Model :=
  find_model (cls_name m ++ "Update").

(** ** Reading the keywords of a declaration *)

(** The declared default, if any: [default=v] gives [v],
    [default_factory=datetime.utcnow] gives the reading [now] of the clock.
    A field with neither is required. *)
Definition field_default (now : Z) (f : FieldInfo) : option value :=
  List.fold_right
    (fun a r =>
       match a with
       | default v => Some v
       | default_factory_utcnow => Some (VDatetime now)
       | _ => r
       end) None (args f).

Definition field_max_length (f : FieldInfo) : option nat :=
  List.fold_right
    (fun a r => match a with max_length n => Some n | _ => r end) None (args f).

Definition field_regex (f : FieldInfo) : option string :=
  List.fold_right
    (fun a r => match a with regex p => Some p | _ => r end) None (args f).

Definition field_decimal_places (f : FieldInfo) : option nat :=
  List.fold_right
    (fun a r => match a with decimal_places n => Some n | _ => r end) None (args f).

Definition required (f : FieldInfo) : bool :=
  match field_default 0 f with
  | Some _ => false
  | None => true
  end.

Definition has_field (m : Model) (n : string) : bool :=
  existsb (fun f => String.eqb (name f) n) (fields m).

Definition find_field (m : Model) (n : string) : option FieldInfo :=
  List.find (fun f => String.eqb (name f) n) (fields m).

(** ** Validation

    The errors a validation reports, one per failing field. *)

Inductive error_kind :=
| missing
| type_error
| any_str_max_length (limit_value : nat)
| decimal_max_places (decimal_places : nat).

Definition errors := list (string * error_kind).

(** Conformance of a value to an annotation, for keyword data given in the
    Python types of the annotations: a value of the annotated type is kept,
    an [int] is taken for a [Decimal], the value of a member for a
    [str]-based enum, and [None] by [Optional] only.  The further
    conversions of the validator (a numeric string given for a number, say)
    are outside this embedding: the properties below are acceptances of
    values in their own type, and the refusal of [None]. *)
Fixpoint conform (t : ty) (v : value) : option value :=
  match t with
  | TInt => match v with VInt _ => Some v | _ => None end
  | TStr => match v with VStr _ => Some v | _ => None end
  | TBool => match v with VBool _ => Some v | _ => None end
  | TDecimal =>
      match v with
      | VDecimal _ => Some v
      | VInt n => Some (VDecimal {| coefficient := n; exponent := 0 |})
      | _ => None
      end
  | TDatetime => match v with VDatetime _ => Some v | _ => None end
  | TAlertType =>
      match v with
      | VAlertType _ => Some v
      | VStr s => VAlertType <$> AlertType_of_value s
      | _ => None
      end
  | TAlertStatus =>
      match v with
      | VAlertStatus _ => Some v
      | VStr s => VAlertStatus <$> AlertStatus_of_value s
      | _ => None
      end
  | TAny => Some v
  | TOptional t' => match v with VNone => Some VNone | _ => conform t' v end
  | TList t' =>
      match v with
      | VList l => VList <$> mapM (conform t') l
      | _ => None
      end
  | TDict _ tv =>
      match v with
      | VDict d =>
          VDict <$> mapM (fun kv => pair (fst kv) <$> conform tv (snd kv)) d
      | _ => None
      end
  end.

(** How many of the last [fuel] digits of [c] are zeros. *)
Fixpoint trailing_zeros (fuel : nat) (c : Z) : nat :=
  match fuel with
  | O => O
  | S fuel' =>
      if c mod 10 =? 0 then S (trailing_zeros fuel' (c / 10)) else O
  end.

(** Number of digits after the decimal point, the trailing zeros dropped:
    [Decimal("1.500")] has one. *)
Definition decimals (d : Decimal) : nat :=
  let places := Z.to_nat (- exponent d) in
  (places - trailing_zeros places (coefficient d))%nat.

(** The constraint of the declaration that the value breaks.  The validator
    checks the length of a string against [max_length] and the places of a
    decimal against [decimal_places].  The [regex] keyword is accepted by
    [Field] and kept in the declaration, but no check is derived from it. *)
Definition check_constraints (f : FieldInfo) (v : value) : option error_kind :=
  match v with
  | VStr s =>
      match field_max_length f with
      | Some n =>
          if (n <? String.length s)%nat then Some (any_str_max_length n)
          else None
      | None => None
      end
  | VDecimal d =>
      match field_decimal_places f with
      | Some n =>
          if (n <? decimals d)%nat then Some (decimal_max_places n) else None
      | None => None
      end
  | _ => None
  end.

Definition validate_field (f : FieldInfo) (v : value) : error_kind + value :=
  match conform (annotation f) v with
  | None => inl type_error
  | Some v' =>
      match check_constraints f v' with
      | Some e => inl e
      | None => inr v'
      end
  end.

(** One pass over the declared fields: a supplied value is validated, an
    omitted one takes the declared default, and an omitted required field is
    an error.  Keywords that name no field are ignored. *)
Fixpoint validate_fields (fs : list FieldInfo) (now : Z)
    (kwargs : gmap string value) : errors * gmap string value :=
  match fs with
  | [] => ([], ∅)
  | f :: fs' =>
      let (errs, obj) := validate_fields fs' now kwargs in
      match kwargs !! name f with
      | Some v =>
          match validate_field f v with
          | inl e => ((name f, e) :: errs, obj)
          | inr v' => (errs, <[name f := v']> obj)
          end
      | None =>
          match field_default now f with
          | Some d => (errs, <[name f := d]> obj)
          | None => ((name f, missing) :: errs, obj)
          end
      end
  end.

(** [m.model_validate(kwargs)] at clock reading [now]: the instance, as the
    map from field names to values, or the errors. *)
Definition validate (m : Model) (now : Z) (kwargs : gmap string value)
    : errors + gmap string value :=
  match validate_fields (fields m) now kwargs with
  | ([], obj) => inr obj
  | (errs, _) => inl errs
  end.

(** The constructor of a class declared with [table=True] validates
    nothing: a keyword that names a field is stored as it is given, an
    omitted field takes its declared default, and an omitted field without
    a default is left unset. *)
Fixpoint table_construct (fs : list FieldInfo) (now : Z)
    (kwargs : gmap string value) : gmap string value :=
  match fs with
  | [] => ∅
  | f :: fs' =>
      let obj := table_construct fs' now kwargs in
      match kwargs !! name f with
      | Some v => <[name f := v]> obj
      | None =>
          match field_default now f with
          | Some d => <[name f := d]> obj
          | None => obj
          end
      end
  end.

(** The call of the class with the keywords [kwargs], at clock reading
    [now]. *)
Definition construct (m : Model) (now : Z) (kwargs : gmap string value)
    : errors + gmap string value :=
  if table m then inr (table_construct (fields m) now kwargs)
  else validate m now kwargs.

(** The names of the fields a Create shape leaves to the server: the key,
    the creation timestamp and the computed totals. *)
Definition server_assigned : list string := [
  "id"; "created_at";
  "total_value"; "total_cost"; "total_gain_loss"; "total_gain_loss_percent";
  "total_amount"; "current_value"; "gain_loss"; "gain_loss_percent"
].


(** ** Applying an Update shape *)

(** Modelled from the spec: merging an Update instance onto a stored record.
    models.py declares the Update shapes but holds no function that applies
    one; the spec words it as "only fields present should be applied; absent
    fields leave the stored value unchanged".  A field of the update is
    absent when it is [None] (the declared default of every Update field) or
    not there at all. *)
Definition apply_update (u r : gmap string value) : gmap string value :=
  map_imap
    (fun k v =>
       match u !! k with
       | Some VNone | None => Some v
       | Some v' => Some v'
       end) r.


(** ** The email pattern, read by hand

    The strings that [^[a-zA-Z0-9_.+-]+@[a-zA-Z0-9-]+\.[a-zA-Z0-9-.]+$]
    describes, written down directly: a local part, an at sign, a domain
    label, a dot and a tail, each part non-empty and made of the characters
    of its class; a single newline may follow. *)

Definition between (lo hi c : ascii) : bool :=
  (code lo <=? code c)%N && (code c <=? code hi)%N.

Definition alnum (c : ascii) : bool :=
  between "a" "z" c || between "A" "Z" c || between "0" "9" c.

Definition local_char (c : ascii) : bool :=
  alnum c || Ascii.eqb c "_" || Ascii.eqb c "." || Ascii.eqb c "+"
  || Ascii.eqb c "-".

Definition domain_char (c : ascii) : bool := alnum c || Ascii.eqb c "-".

Definition tail_char (c : ascii) : bool :=
  alnum c || Ascii.eqb c "-" || Ascii.eqb c ".".

Definition email_shape (s : string) : Prop :=
  ∃ l d t nl : list ascii,
    list_ascii_of_string s = (l ++ "@"%char :: d ++ "."%char :: t ++ nl)%list
    ∧ l ≠ [] ∧ d ≠ [] ∧ t ≠ []
    ∧ Forall (fun c => local_char c = true) l
    ∧ Forall (fun c => domain_char c = true) d
    ∧ Forall (fun c => tail_char c = true) t
    ∧ (nl = [] ∨ nl = ["010"%char]).

(** ** Keyword data used below *)

Definition HOLD_Transaction : gmap string value :=
  {[ "holding_id" := VInt 1;
     "transaction_type" := VStr "HOLD";
     "quantity" := VDecimal {| coefficient := 1; exponent := 0 |};
     "price" := VDecimal {| coefficient := 1; exponent := 0 |};
     "total_amount" := VDecimal {| coefficient := 1; exponent := 0 |} ]}.

Definition Decimal_150_00 : Decimal := {| coefficient := 15000; exponent := -2 |}.

(** [PriceAlert(user_id=..., stock_id=..., alert_type=AlertType.PRICE_ABOVE,
    target_price=Decimal("150.00"))] *)
Definition PriceAlert_above_150 (user_id stock_id : Z) : gmap string value :=
  {[ "user_id" := VInt user_id;
     "stock_id" := VInt stock_id;
     "alert_type" := VAlertType PRICE_ABOVE;
     "target_price" := VDecimal Decimal_150_00 ]}.

(** [User(username="ana", email="ana.example.org", full_name="Ana")] *)
Definition ana_without_at_sign : gmap string value :=
  {[ "username" := VStr "ana"; "email" := VStr "ana.example.org";
     "full_name" := VStr "Ana" ]}.

(** A stored user, as a record of attributes. *)
Definition stored_user : gmap string value :=
  {[ "id" := VInt 7; "username" := VStr "ana";
     "email" := VStr "ana@example.org"; "full_name" := VStr "Ana";
     "is_active" := VBool false ]}.

(** ** Storage keywords and cross references *)

Definition field_primary_key (f : FieldInfo) : bool :=
  existsb (fun a => match a with primary_key true => true | _ => false end)
    (args f).

Definition field_unique (f : FieldInfo) : bool :=
  existsb (fun a => match a with unique true => true | _ => false end)
    (args f).

Definition field_index (f : FieldInfo) : bool :=
  existsb (fun a => match a with index true => true | _ => false end)
    (args f).

Definition field_foreign_key (f : FieldInfo) : option string :=
  List.fold_right
    (fun a r => match a with foreign_key t => Some t | _ => r end) None (args f).

Fixpoint ty_eqb (a b : ty) : bool :=
  match a, b with
  | TInt, TInt | TStr, TStr | TBool, TBool | TDecimal, TDecimal
  | TDatetime, TDatetime | TAlertType, TAlertType
  | TAlertStatus, TAlertStatus | TAny, TAny => true
  | TOptional a', TOptional b' => ty_eqb a' b'
  | TList a', TList b' => ty_eqb a' b'
  | TDict ka va, TDict kb vb => ty_eqb ka kb && ty_eqb va vb
  | _, _ => false
  end.

Definition strip_optional (t : ty) : ty :=
  match t with
  | TOptional t' => t'
  | _ => t
  end.

(** A foreign key is written ["table.column"]: the text before the first
    dot and the text after it. *)
Fixpoint split_dot (s : string) : option (string * string) :=
  match s with
  | EmptyString => None
  | String c rest =>
      if Ascii.eqb c "." then Some (EmptyString, rest)
      else
        match split_dot rest with
        | Some (t, col) => Some (String c t, col)
        | None => None
        end
  end.

Definition find_table (t : string) : option Model :=
  List.find
    (fun m =>
       match tablename m with
       | Some n => String.eqb n t
       | None => false
       end) models.

(** The class and the column a foreign key names. *)
Definition foreign_key_target (fk : string) : option (Model * FieldInfo) :=
  match split_dot fk with
  | Some (t, col) =>
      match find_table t with
      | Some m =>
          match find_field m col with
          | Some f => Some (m, f)
          | None => None
          end
      | None => None
      end
  | None => None
  end.

(** The attribute on the other side of a relationship: the one of the
    target class that [back_populates] names. *)
Definition find_relationship (m : Model) (a : string) : option RelationshipInfo :=
  List.find (fun r => String.eqb (attr r) a) (relationships m).

Definition other_side (r : RelationshipInfo) : option (Model * RelationshipInfo) :=
  match find_model (target r) with
  | Some m' =>
      match find_relationship m' (back_populates r) with
      | Some r' => Some (m', r')
      | None => None
      end
  | None => None
  end.

(** The foreign keys of a class, as the tables they point to. *)
Definition referenced_tables (m : Model) : list string :=
  omap (fun f =>
          match field_foreign_key f with
          | Some fk => fst <$> split_dot fk
          | None => None
          end) (fields m).

(** The entity a Create or Update shape is named after. *)
Definition entity_of (shape : Model) : option Model :=
  let n := cls_name shape in
  find_model (String.substring 0 (String.length n - 6) n).

(** What a shape must declare for its instances to be keyword data of its
    entity: a field of the entity that the shape also declares has the same
    annotation, length and decimal places there and no pattern of its own;
    one that the shape does not declare has a default. *)
Definition feeds (shape entity : Model) : bool :=
  forallb
    (fun g =>
       match find_field shape (name g) with
       | Some f =>
           ty_eqb (annotation f) (annotation g)
           && bool_decide (field_max_length f = field_max_length g)
           && bool_decide (field_decimal_places f = field_decimal_places g)
           && bool_decide (field_regex f = field_regex g)
       | None => negb (required g)
       end) (fields entity)
  && forallb (fun f => has_field entity (name f)) (fields shape).

(** The check behind the mirror of an Update shape: the field of the entity
    with the same name, its annotation made optional, the same length and
    decimal places, [None] as default, and neither a key nor a timestamp. *)
Definition mirrors (now : Z) (entity : Model) (f : FieldInfo) : bool :=
  match find_field entity (name f) with
  | Some g =>
      ty_eqb (annotation f) (TOptional (strip_optional (annotation g)))
      && negb (ty_eqb (strip_optional (annotation g)) TDatetime)
      && bool_decide (field_max_length f = field_max_length g)
      && bool_decide (field_decimal_places f = field_decimal_places g)
      && bool_decide (field_regex f = None)
      && match field_default now f with Some VNone => true | _ => false end
      && negb (field_primary_key g)
      && bool_decide (field_foreign_key g = None)
  | None => false
  end.


(** * Properties *)

(** ** The validation pass *)

Section ValidateFields.
Variable now : Z.
Variable kwargs : gmap string value.

Lemma validate_fields_cons (f : FieldInfo) (fs : list FieldInfo) :
  validate_fields (f :: fs) now kwargs =
    let (errs, obj) := validate_fields fs now kwargs in
    match kwargs !! name f with
    | Some v =>
        match validate_field f v with
        | inl e => ((name f, e) :: errs, obj)
        | inr v' => (errs, <[name f := v']> obj)
        end
    | None =>
        match field_default now f with
        | Some d => (errs, <[name f := d]> obj)
        | None => ((name f, missing) :: errs, obj)
        end
    end.
Proof. reflexivity. Qed.

(** An omitted field without a default is reported as missing. *)
Lemma validate_fields_missing (fs : list FieldInfo) (f : FieldInfo) :
  f ∈ fs → kwargs !! name f = None → field_default now f = None →
  (name f, missing) ∈ (validate_fields fs now kwargs).1.
Proof.
  intros Hin Hno Hdef.
  induction fs as [|g fs IH]; [by apply elem_of_nil in Hin|].
  rewrite validate_fields_cons.
  destruct (validate_fields fs now kwargs) as [errs obj] eqn:E.
  apply elem_of_cons in Hin as [->|Hin].
  - rewrite Hno, Hdef. simpl. left.
  - specialize (IH Hin). simpl in IH.
    destruct (kwargs !! name g) as [v|];
      [destruct (validate_field g v)|destruct (field_default now g)];
      simpl; auto using list_elem_of_further.
Qed.

(** A supplied value that breaks the declaration is reported. *)
Lemma validate_fields_invalid (fs : list FieldInfo) (f : FieldInfo)
    (v : value) (e : error_kind) :
  f ∈ fs → kwargs !! name f = Some v → validate_field f v = inl e →
  (name f, e) ∈ (validate_fields fs now kwargs).1.
Proof.
  intros Hin Hv He.
  induction fs as [|g fs IH]; [by apply elem_of_nil in Hin|].
  rewrite validate_fields_cons.
  destruct (validate_fields fs now kwargs) as [errs obj] eqn:E.
  apply elem_of_cons in Hin as [->|Hin].
  - rewrite Hv, He. simpl. left.
  - specialize (IH Hin). simpl in IH.
    destruct (kwargs !! name g) as [w|];
      [destruct (validate_field g w)|destruct (field_default now g)];
      simpl; auto using list_elem_of_further.
Qed.

(** The instance has no attribute beyond the declared fields. *)
Lemma validate_fields_undeclared (fs : list FieldInfo) (k : string) :
  (∀ f, f ∈ fs → name f ≠ k) →
  (validate_fields fs now kwargs).2 !! k = None.
Proof.
  induction fs as [|g fs IH]; intros Hk; [apply lookup_empty|].
  rewrite validate_fields_cons.
  destruct (validate_fields fs now kwargs) as [errs obj] eqn:E.
  assert (obj !! k = None) as Hobj.
  { apply IH. intros f Hf. apply Hk. by right. }
  assert (name g ≠ k) as Hg by (apply Hk; left).
  destruct (kwargs !! name g) as [w|];
    [destruct (validate_field g w)|destruct (field_default now g)];
    simpl; try done; by rewrite lookup_insert_ne.
Qed.

(** With distinct field names, an omitted field holds its default ... *)
Lemma validate_fields_default (fs : list FieldInfo) (f : FieldInfo)
    (d : value) :
  NoDup (name <$> fs) → f ∈ fs →
  kwargs !! name f = None → field_default now f = Some d →
  (validate_fields fs now kwargs).2 !! name f = Some d.
Proof.
  intros Hnd Hin Hno Hdef.
  induction fs as [|g fs IH]; [by apply elem_of_nil in Hin|].
  rewrite validate_fields_cons.
  destruct (validate_fields fs now kwargs) as [errs obj] eqn:E.
  rewrite fmap_cons in Hnd. apply NoDup_cons in Hnd as [Hg Hnd].
  apply elem_of_cons in Hin as [->|Hin].
  - rewrite Hno, Hdef. simpl. apply lookup_insert_eq.
  - specialize (IH Hnd Hin). simpl in IH.
    assert (name g ≠ name f) as Hne.
    { intros Heq. apply Hg. rewrite Heq. by apply list_elem_of_fmap_2. }
    destruct (kwargs !! name g) as [w|];
      [destruct (validate_field g w)|destruct (field_default now g)];
      simpl; try done; by rewrite lookup_insert_ne.
Qed.

(** ... and a supplied field holds its validated value. *)
Lemma validate_fields_supplied (fs : list FieldInfo) (f : FieldInfo)
    (v v' : value) :
  NoDup (name <$> fs) → f ∈ fs →
  kwargs !! name f = Some v → validate_field f v = inr v' →
  (validate_fields fs now kwargs).2 !! name f = Some v'.
Proof.
  intros Hnd Hin Hv Hok.
  induction fs as [|g fs IH]; [by apply elem_of_nil in Hin|].
  rewrite validate_fields_cons.
  destruct (validate_fields fs now kwargs) as [errs obj] eqn:E.
  rewrite fmap_cons in Hnd. apply NoDup_cons in Hnd as [Hg Hnd].
  apply elem_of_cons in Hin as [->|Hin].
  - rewrite Hv, Hok. simpl. apply lookup_insert_eq.
  - specialize (IH Hnd Hin). simpl in IH.
    assert (name g ≠ name f) as Hne.
    { intros Heq. apply Hg. rewrite Heq. by apply list_elem_of_fmap_2. }
    destruct (kwargs !! name g) as [w|];
      [destruct (validate_field g w)|destruct (field_default now g)];
      simpl; try done; by rewrite lookup_insert_ne.
Qed.

Lemma validate_inl (m : Model) (n : string) (e : error_kind) :
  (n, e) ∈ (validate_fields (fields m) now kwargs).1 →
  ∃ errs, validate m now kwargs = inl errs ∧ (n, e) ∈ errs.
Proof.
  unfold validate.
  destruct (validate_fields (fields m) now kwargs) as [[|e0 errs] obj];
    simpl; intros Hin; [by apply elem_of_nil in Hin|].
  eauto.
Qed.

Lemma validate_inr (m : Model) (r : gmap string value) :
  validate m now kwargs = inr r →
  validate_fields (fields m) now kwargs = ([], r).
Proof.
  unfold validate.
  destruct (validate_fields (fields m) now kwargs) as [[|e0 errs] obj];
    simpl; intros H; by simplify_eq.
Qed.
End ValidateFields.

Lemma field_default_clock (f : FieldInfo) (now now' : Z) :
  field_default now f = None → field_default now' f = None.
Proof.
  unfold field_default. induction (args f) as [|a l IH]; [done|].
  simpl. destruct a; auto; discriminate.
Qed.

Lemma required_no_default (f : FieldInfo) (now : Z) :
  required f = true → field_default now f = None.
Proof.
  unfold required. intros H. apply (field_default_clock f 0).
  by destruct (field_default 0 f).
Qed.

(** ** Finite checks over the schema *)

Lemma persistent_models_eq :
  persistent_models =
    [User; Stock; Portfolio; PortfolioHolding; Transaction; StockPriceHistory;
     PriceAlert; WatchList; MarketIndex].
Proof. reflexivity. Qed.

Lemma create_shapes_eq :
  create_shapes =
    [UserCreate; StockCreate; PortfolioCreate; TransactionCreate;
     PriceAlertCreate; WatchListCreate; StockPriceHistoryCreate].
Proof. reflexivity. Qed.

Lemma update_shapes_eq :
  update_shapes =
    [UserUpdate; StockUpdate; PortfolioUpdate; PriceAlertUpdate;
     WatchListUpdate].
Proof. reflexivity. Qed.

(** A boolean check that holds of every declared field holds of each. *)
Lemma forall_fields (ms : list Model) (P : Model → FieldInfo → bool) :
  forallb (fun m => forallb (P m) (fields m)) ms = true →
  ∀ m f, m ∈ ms → f ∈ fields m → P m f = true.
Proof.
  intros H m f Hm Hf.
  rewrite forallb_forall in H.
  apply list_elem_of_In in Hm. apply list_elem_of_In in Hf.
  specialize (H m Hm). rewrite forallb_forall in H. by apply H.
Qed.

(** Field names are not repeated within a class. *)
Lemma field_names_NoDup (m : Model) : m ∈ models → NoDup (name <$> fields m).
Proof.
  intros Hm. unfold models in Hm.
  repeat (apply elem_of_cons in Hm as [->|Hm]);
    [by apply (bool_decide_unpack _); vm_compute ..|by apply elem_of_nil in Hm].
Qed.

Ltac elem_of_list :=
  repeat first [apply list_elem_of_here | apply list_elem_of_further].

(** ** Validation of one field *)

Lemma validate_field_str (f : FieldInfo) (s : string) (n : nat) :
  annotation f = TStr → field_max_length f = Some n → field_regex f = None →
  (String.length s ≤ n)%nat → validate_field f (VStr s) = inr (VStr s).
Proof.
  intros Ht Hn _ Hlen. unfold validate_field. rewrite Ht. simpl.
  rewrite Hn.
  destruct (Nat.ltb_spec n (String.length s)); [lia|done].
Qed.

(** When no field is in error the instance is the second component. *)
Lemma validate_ok (m : Model) (now : Z) (kwargs : gmap string value) :
  (validate_fields (fields m) now kwargs).1 = [] →
  validate m now kwargs = inr (validate_fields (fields m) now kwargs).2.
Proof.
  unfold validate.
  destruct (validate_fields (fields m) now kwargs) as [errs obj].
  simpl. by intros ->.
Qed.

(** ** The matcher *)

Lemma match_one_spec (cs : charset) (next : list ascii → bool) (s : list ascii) :
  match_one cs next s = true ↔
  ∃ c rest, s = c :: rest ∧ in_charset cs c = true ∧ next rest = true.
Proof.
  destruct s as [|c s]; simpl.
  - split; [done|]. by intros (c & rest & H & _).
  - rewrite andb_true_iff. split.
    + intros [Hc Hn]. by exists c, s.
    + intros (c' & rest & [= -> ->] & Hc & Hn). done.
Qed.

Lemma match_star_spec (cs : charset) (next : list ascii → bool) (s : list ascii) :
  match_star cs next s = true ↔
  ∃ w rest, s = (w ++ rest)%list ∧ Forall (fun c => in_charset cs c = true) w
            ∧ next rest = true.
Proof.
  induction s as [|c s IH]; simpl.
  - rewrite orb_false_r. split.
    + intros Hn. by exists [], [].
    + intros (w & rest & Hs & _ & Hn).
      symmetry in Hs. apply app_eq_nil in Hs as [_ ->]. done.
  - rewrite orb_true_iff, andb_true_iff, IH. split.
    + intros [Hn|[Hc (w & rest & -> & Hw & Hn)]].
      * by exists [], (c :: s).
      * exists (c :: w), rest. by repeat split; [constructor|].
    + intros (w & rest & Hs & Hw & Hn).
      destruct w as [|c' w]; simpl in Hs.
      * left. by rewrite Hs.
      * injection Hs as -> ->. apply Forall_cons in Hw as [Hc Hw].
        right. split; [done|]. by exists w, rest.
Qed.

Lemma match_plus_spec (cs : charset) (next : list ascii → bool) (s : list ascii) :
  match_one cs (match_star cs next) s = true ↔
  ∃ w rest, s = (w ++ rest)%list ∧ w ≠ []
            ∧ Forall (fun c => in_charset cs c = true) w ∧ next rest = true.
Proof.
  rewrite match_one_spec. split.
  - intros (c & s' & -> & Hc & Hs').
    apply match_star_spec in Hs' as (w & rest & -> & Hw & Hn).
    exists (c :: w), rest. by repeat split; [|constructor|].
  - intros (w & rest & -> & Hne & Hw & Hn).
    destruct w as [|c w]; [done|]. apply Forall_cons in Hw as [Hc Hw].
    exists c, (w ++ rest)%list. repeat split; [done|].
    apply match_star_spec. by exists w, rest.
Qed.

Lemma parse_email_pattern :
  parse_pattern "^[a-zA-Z0-9_.+-]+@[a-zA-Z0-9-]+\.[a-zA-Z0-9-.]+$" =
  Some {|
    anchored_start := true;
    pieces := [
      {| chars := [(97, 122); (65, 90); (48, 57); (95, 95); (46, 46);
                   (43, 43); (45, 45)]%N; quant := OneOrMore |};
      {| chars := [(64, 64)]%N; quant := One |};
      {| chars := [(97, 122); (65, 90); (48, 57); (45, 45)]%N;
         quant := OneOrMore |};
      {| chars := [(46, 46)]%N; quant := One |};
      {| chars := [(97, 122); (65, 90); (48, 57); (45, 45); (46, 46)]%N;
         quant := OneOrMore |}
    ];
    anchored_end := true
  |}.
Proof. reflexivity. Qed.

Lemma in_charset_single (c d : ascii) :
  in_charset [single d] c = true ↔ c = d.
Proof.
  unfold in_charset, single, code. simpl.
  rewrite orb_false_r, andb_true_iff, !N.leb_le. split.
  - intros [H1 H2]. assert (N_of_ascii c = N_of_ascii d) as H by lia.
    by rewrite <- (ascii_N_embedding c), <- (ascii_N_embedding d), H.
  - intros ->. lia.
Qed.

Lemma at_end_spec (s : list ascii) :
  at_end true s = true ↔ s = [] ∨ s = ["010"%char].
Proof.
  destruct s as [|c [|c' s]]; simpl.
  - split; auto.
  - rewrite Ascii.eqb_eq. split; [intros ->; by right|].
    by intros [|[= ->]].
  - split; [done|]. by intros [|].
Qed.

Ltac all_characters c :=
  destruct c as [[] [] [] [] [] [] [] []]; reflexivity.

(** The matcher accepts exactly the strings of the shape read by hand. *)
Lemma email_pattern_shape (s : string) :
  pattern_matches "^[a-zA-Z0-9_.+-]+@[a-zA-Z0-9-]+\.[a-zA-Z0-9-.]+$" s = true
  ↔ email_shape s.
Proof.
  unfold pattern_matches. rewrite parse_email_pattern.
  unfold re_match, email_shape. cbn [pieces anchored_end match_pieces quant chars].
  generalize (list_ascii_of_string s) as cs. intros cs.
  assert (∀ c, in_charset [(97, 122); (65, 90); (48, 57); (95, 95); (46, 46);
                           (43, 43); (45, 45)]%N c = local_char c) as Hl
    by (intros c; all_characters c).
  assert (∀ c, in_charset [(97, 122); (65, 90); (48, 57); (45, 45)]%N c
               = domain_char c) as Hd by (intros c; all_characters c).
  assert (∀ c, in_charset [(97, 122); (65, 90); (48, 57); (45, 45); (46, 46)]%N c
               = tail_char c) as Ht by (intros c; all_characters c).
  rewrite match_plus_spec. split.
  - intros (l & r1 & -> & Hl0 & Hlc & H1).
    apply match_one_spec in H1 as (a & r2 & -> & Ha & H2).
    apply (in_charset_single a "@") in Ha as ->.
    apply match_plus_spec in H2 as (d & r3 & -> & Hd0 & Hdc & H3).
    apply match_one_spec in H3 as (b & r4 & -> & Hb & H4).
    apply (in_charset_single b ".") in Hb as ->.
    apply match_plus_spec in H4 as (t & nl & -> & Ht0 & Htc & H5).
    apply at_end_spec in H5.
    exists l, d, t, nl. repeat split; try done.
    + eapply Forall_impl; [exact Hlc|]. intros c Hc. cbv beta in *. by rewrite <- Hl.
    + eapply Forall_impl; [exact Hdc|]. intros c Hc. cbv beta in *. by rewrite <- Hd.
    + eapply Forall_impl; [exact Htc|]. intros c Hc. cbv beta in *. by rewrite <- Ht.
  - intros (l & d & t & nl & -> & Hl0 & Hd0 & Ht0 & Hlc & Hdc & Htc & Hnl).
    exists l, ("@"%char :: d ++ "."%char :: t ++ nl)%list. repeat split; try done.
    { eapply Forall_impl; [exact Hlc|]. intros c Hc. cbv beta in *. by rewrite Hl. }
    apply match_one_spec. eexists _, _. split; [done|].
    split; [by apply (in_charset_single "@" "@")|].
    apply match_plus_spec. exists d, ("."%char :: t ++ nl)%list.
    repeat split; try done.
    { eapply Forall_impl; [exact Hdc|]. intros c Hc. cbv beta in *. by rewrite Hd. }
    apply match_one_spec. eexists _, _. split; [done|].
    split; [by apply (in_charset_single "." ".")|].
    apply match_plus_spec. exists t, nl. repeat split; try done.
    { eapply Forall_impl; [exact Htc|]. intros c Hc. cbv beta in *. by rewrite Ht. }
    by apply at_end_spec.
Qed.

(** ** Required fields *)

Lemma table_construct_unset (fs : list FieldInfo) (now : Z)
    (kwargs : gmap string value) (k : string) :
  kwargs !! k = None →
  (∀ g, g ∈ fs → name g = k → field_default now g = None) →
  table_construct fs now kwargs !! k = None.
Proof.
  intros Hk. induction fs as [|g fs IH]; intros Hdef; [apply lookup_empty|].
  simpl.
  assert (table_construct fs now kwargs !! k = None) as Hrec.
  { apply IH. intros g' Hg'. apply Hdef. by right. }
  destruct (decide (name g = k)) as [Heq|Hne].
  - rewrite Heq, Hk, <- Heq, (Hdef g) by (done || left). by rewrite Heq.
  - destruct (kwargs !! name g); [by rewrite lookup_insert_ne|].
    destruct (field_default now g); [by rewrite lookup_insert_ne|done].
Qed.

Lemma same_name_same_field (fs : list FieldInfo) (f g : FieldInfo) :
  NoDup (name <$> fs) → f ∈ fs → g ∈ fs → name g = name f → g = f.
Proof.
  induction fs as [|h fs IH]; intros Hnd Hf Hg Heq;
    [by apply elem_of_nil in Hf|].
  rewrite fmap_cons in Hnd. apply NoDup_cons in Hnd as [Hh Hnd].
  apply elem_of_cons in Hf as [->|Hf]; apply elem_of_cons in Hg as [->|Hg];
    try done.
  - destruct Hh. rewrite <- Heq. by apply list_elem_of_fmap_2.
  - destruct Hh. rewrite Heq. by apply list_elem_of_fmap_2.
  - by apply IH.
Qed.

Lemma persistent_models_table (m : Model) :
  m ∈ persistent_models → m ∈ models ∧ table m = true.
Proof.
  unfold persistent_models. intros Hm.
  apply list_elem_of_In, filter_In in Hm as [Hin Ht].
  split; [by apply list_elem_of_In|done].
Qed.

Lemma create_shapes_plain (m : Model) : m ∈ create_shapes → table m = false.
Proof.
  rewrite create_shapes_eq. intros Hm.
  repeat (apply elem_of_cons in Hm as [->|Hm]); try done.
  by apply elem_of_nil in Hm.
Qed.

(** C7, as the code has it: keyword data that omits a required field (one
    declared with neither [default] nor [default_factory]) fails the
    validation of every persistent entity and Create shape, the field being
    reported as missing.  Constructing a Create shape is that validation, so
    it fails at object-construction time.  Constructing a persistent entity
    validates nothing: the instance is built with the field left unset. *)
Theorem required_field_omitted (m : Model) (f : FieldInfo) (now : Z)
    (kwargs : gmap string value) :
  m ∈ persistent_models ∨ m ∈ create_shapes →
  f ∈ fields m → required f = true → kwargs !! name f = None →
  (∃ errs, validate m now kwargs = inl errs ∧ (name f, missing) ∈ errs)
  ∧ (m ∈ create_shapes →
     ∃ errs, construct m now kwargs = inl errs ∧ (name f, missing) ∈ errs)
  ∧ (m ∈ persistent_models →
     ∃ r, construct m now kwargs = inr r ∧ r !! name f = None).
Proof.
  intros _ Hf Hreq Hno.
  assert (∃ errs, validate m now kwargs = inl errs ∧ (name f, missing) ∈ errs)
    as Hval.
  { apply validate_inl, validate_fields_missing; try done.
    by apply required_no_default. }
  split; [exact Hval|]. split.
  - intros Hm. unfold construct. by rewrite (create_shapes_plain m Hm).
  - intros Hm. apply persistent_models_table in Hm as [Hin Ht].
    unfold construct. rewrite Ht. eexists. split; [reflexivity|].
    apply table_construct_unset; [done|].
    intros g Hg Heq.
    rewrite (same_name_same_field (fields m) f g); try done.
    + by apply required_no_default.
    + by apply field_names_NoDup.
Qed.

Lemma required_field_omitted_witness :
  ∃ errs,
    construct TransactionCreate 0 {["holding_id" := VInt 1]} = inl errs
    ∧ ("quantity", missing) ∈ errs.
Proof.
  apply (required_field_omitted TransactionCreate
           (Field "quantity" TDecimal [decimal_places 8]) 0
           {["holding_id" := VInt 1]}).
  - right. rewrite create_shapes_eq. elem_of_list.
  - unfold TransactionCreate, fields. elem_of_list.
  - reflexivity.
  - vm_compute. reflexivity.
  - rewrite create_shapes_eq. elem_of_list.
Defined.

(** C7, as stated, fails for a persistent entity: [Transaction(holding_id=1)]
    omits the required [transaction_type], [quantity], [price] and
    [total_amount], and the constructor builds an instance all the same,
    holding the key it was given and none of the four. *)
Lemma required_at_construction_counterexample :
  Forall (fun n => ∃ f, find_field Transaction n = Some f ∧ required f = true)
    ["transaction_type"; "quantity"; "price"; "total_amount"]
  ∧ ∃ r, construct Transaction 0 {["holding_id" := VInt 1]} = inr r
         ∧ r !! "holding_id" = Some (VInt 1)
         ∧ r !! "transaction_type" = None ∧ r !! "quantity" = None
         ∧ r !! "price" = None ∧ r !! "total_amount" = None.
Proof.
  split; [repeat constructor; by eexists|].
  exists (table_construct (fields Transaction) 0 {["holding_id" := VInt 1]}).
  split; [reflexivity|]. repeat split; by vm_compute.
Qed.

(** ** Create shapes *)

(** C8: the Create shapes are the seven classes named [...Create], and none
    of them declares [id], [created_at] or a computed total. *)
Theorem create_shapes_omit_server_assigned :
  cls_name <$> create_shapes =
    ["UserCreate"; "StockCreate"; "PortfolioCreate"; "TransactionCreate";
     "PriceAlertCreate"; "WatchListCreate"; "StockPriceHistoryCreate"]
  ∧ Forall (fun m => Forall (fun f => name f ∉ server_assigned) (fields m))
      create_shapes.
Proof.
  split; [reflexivity|].
  apply (bool_decide_unpack _). vm_compute. exact I.
Qed.

(** ** The transaction type *)

(** C1 (the code at the failing input): a Transaction and a
    TransactionCreate whose [transaction_type] is ["HOLD"] pass validation
    and keep the value; the field is a [str] limited to 10 characters. *)
Theorem transaction_type_HOLD_accepted :
  (∃ r, validate Transaction 0 HOLD_Transaction = inr r
        ∧ r !! "transaction_type" = Some (VStr "HOLD"))
  ∧ (∃ r, validate TransactionCreate 0 HOLD_Transaction = inr r
          ∧ r !! "transaction_type" = Some (VStr "HOLD")).
Proof.
  split; eexists; (split; [apply validate_ok|]; vm_compute; reflexivity).
Qed.

(** ** The email pattern *)

(** C3 (the code at the failing input): ["ana.example.org"] does not match
    the pattern declared on [User.email], and a User holding it as email is
    built all the same, by the constructor and by the validation of the
    keyword data alike. *)
Theorem User_email_pattern_not_enforced :
  pattern_matches "^[a-zA-Z0-9_.+-]+@[a-zA-Z0-9-]+\.[a-zA-Z0-9-.]+$"
    "ana.example.org" = false
  ∧ field_regex <$> find_field User "email"
    = Some (Some "^[a-zA-Z0-9_.+-]+@[a-zA-Z0-9-]+\.[a-zA-Z0-9-.]+$")
  ∧ (∃ u, construct User 0 ana_without_at_sign = inr u
          ∧ u !! "email" = Some (VStr "ana.example.org"))
  ∧ (∃ u, validate User 0 ana_without_at_sign = inr u
          ∧ u !! "email" = Some (VStr "ana.example.org")).
Proof.
  split; [reflexivity|]. split; [reflexivity|]. split.
  - exists (table_construct (fields User) 0 ana_without_at_sign).
    split; [reflexivity|by vm_compute].
  - eexists. split; [apply validate_ok|]; by vm_compute.
Qed.

(** C9: UserCreate checks the length of [email] and nothing else: with the
    three fields supplied as strings within their lengths, every [email] of
    at most 255 characters is accepted and kept as it is, whether it matches
    the email pattern or not; over the whole schema the only declaration
    with a [regex] is [User.email]. *)
Theorem UserCreate_email_unconstrained :
  (∀ (now : Z) (kwargs : gmap string value) (u s n : string),
     kwargs !! "username" = Some (VStr u) →
     kwargs !! "email" = Some (VStr s) →
     kwargs !! "full_name" = Some (VStr n) →
     (String.length u ≤ 50)%nat → (String.length s ≤ 255)%nat →
     (String.length n ≤ 100)%nat →
     ∃ r, validate UserCreate now kwargs = inr r
          ∧ r !! "email" = Some (VStr s))
  ∧ (∀ m f, m ∈ models → f ∈ fields m → is_Some (field_regex f) →
       cls_name m = "User" ∧ name f = "email")
  ∧ (∃ p, field_regex <$> find_field User "email" = Some (Some p)).
Proof.
  split; [|split].
  - intros now kwargs u s n Hu Hs Hn Lu Ls Ln.
    exists (validate_fields (fields UserCreate) now kwargs).2.
    unfold validate, UserCreate, fields.
    rewrite !validate_fields_cons. simpl validate_fields. cbn [name Field].
    rewrite Hu, Hs, Hn.
    rewrite (validate_field_str _ u 50), (validate_field_str _ s 255),
      (validate_field_str _ n 100) by done.
    split; [done|]. simpl.
    rewrite lookup_insert_ne by done. apply lookup_insert_eq.
  - intros m f Hm Hf [p Hp].
    pose proof (forall_fields models
      (fun m f =>
         match field_regex f with
         | Some _ => String.eqb (cls_name m) "User" && String.eqb (name f) "email"
         | None => true
         end) eq_refl m f Hm Hf) as H.
    simpl in H. rewrite Hp in H.
    apply andb_true_iff in H as [H1 H2].
    by apply String.eqb_eq in H1, H2.
  - eexists. reflexivity.
Qed.

Lemma UserCreate_email_unconstrained_witness :
  (∃ r, validate UserCreate 0
          {[ "username" := VStr "ana"; "email" := VStr "not an email";
             "full_name" := VStr "Ana" ]} = inr r
        ∧ r !! "email" = Some (VStr "not an email"))
  ∧ pattern_matches "^[a-zA-Z0-9_.+-]+@[a-zA-Z0-9-]+\.[a-zA-Z0-9-.]+$"
      "not an email" = false.
Proof.
  split; [|reflexivity].
  apply (proj1 UserCreate_email_unconstrained 0 _ "ana" "not an email" "Ana");
    first [by vm_compute | simpl; lia].
Defined.

(** ** Defaults *)





(** ** Update shapes *)

Lemma apply_update_lookup (u r : gmap string value) (k : string) :
  apply_update u r !! k =
    match r !! k with
    | Some v =>
        match u !! k with
        | Some VNone | None => Some v
        | Some v' => Some v'
        end
    | None => None
    end.
Proof.
  unfold apply_update. rewrite map_lookup_imap.
  by destruct (r !! k).
Qed.

Lemma apply_update_absent (u r : gmap string value) (k : string) :
  u !! k = None ∨ u !! k = Some VNone → apply_update u r !! k = r !! k.
Proof.
  intros Hu. rewrite apply_update_lookup.
  destruct (r !! k) as [v|]; [|done].
  by destruct Hu as [-> | ->].
Qed.

Lemma apply_update_all_absent (u r : gmap string value) :
  (∀ k, u !! k = None ∨ u !! k = Some VNone) → apply_update u r = r.
Proof. intros Hu. apply map_eq. intros k. by apply apply_update_absent. Qed.

(** Built from no keyword at all, a class whose fields all default to [None]
    gives an instance whose every attribute is [None]. *)
Lemma validate_fields_all_None (fs : list FieldInfo) (now : Z) :
  Forall (fun f => field_default now f = Some VNone) fs →
  (validate_fields fs now ∅).1 = []
  ∧ ∀ k, (validate_fields fs now ∅).2 !! k = None
         ∨ (validate_fields fs now ∅).2 !! k = Some VNone.
Proof.
  induction 1 as [|f fs Hf _ [IH1 IH2]]; [split; [done|by left]|].
  rewrite validate_fields_cons.
  destruct (validate_fields fs now ∅) as [errs obj].
  rewrite lookup_empty, Hf. simpl in *. split; [done|].
  intros k. destruct (decide (name f = k)) as [<-|Hne].
  - right. apply lookup_insert_eq.
  - rewrite lookup_insert_ne by done. apply IH2.
Qed.

Lemma update_shape_cases (m u_shape : Model) :
  m ∈ persistent_models → update_shape_of m = Some u_shape →
  u_shape ∈ update_shapes.
Proof.
  rewrite persistent_models_eq, update_shapes_eq. intros Hm.
  repeat (apply elem_of_cons in Hm as [->|Hm]);
    try (by apply elem_of_nil in Hm);
    vm_compute; intros [= <-]; elem_of_list.
Qed.

Lemma update_shape_defaults (u_shape : Model) (now : Z) :
  u_shape ∈ update_shapes →
  Forall (fun f => field_default now f = Some VNone) (fields u_shape).
Proof.
  rewrite update_shapes_eq. intros Hu.
  repeat (apply elem_of_cons in Hu as [->|Hu]);
    try (by apply elem_of_nil in Hu);
    repeat constructor.
Qed.

(** C4: for every persistent entity that has an Update shape, the Update
    instance built from no keyword (every field absent) is valid, and
    merging it onto any record gives the record back; in any merge, a field
    that is absent from the update keeps its stored value. *)
Theorem update_absent_fields_unchanged (m u_shape : Model) :
  m ∈ persistent_models → update_shape_of m = Some u_shape →
  (∀ (now : Z) (r : gmap string value),
     ∃ u, validate u_shape now ∅ = inr u ∧ apply_update u r = r)
  ∧ (∀ (u r : gmap string value) (k : string),
       u !! k = None ∨ u !! k = Some VNone →
       apply_update u r !! k = r !! k).
Proof.
  intros Hm Hu. split; [|apply apply_update_absent].
  intros now r.
  pose proof (update_shape_defaults u_shape now
                (update_shape_cases m u_shape Hm Hu)) as Hdef.
  apply validate_fields_all_None in Hdef as [Herr Hnone].
  eexists. split; [by apply validate_ok|].
  by apply apply_update_all_absent.
Qed.

Lemma update_absent_fields_unchanged_witness :
  ∃ u, validate UserUpdate 0 ∅ = inr u
       ∧ apply_update u stored_user = stored_user.
Proof.
  apply (proj1 (update_absent_fields_unchanged User UserUpdate
                  ltac:(rewrite persistent_models_eq; elem_of_list)
                  eq_refl) 0 stored_user).
Defined.

(** * Further properties of the schema *)

(** ** Enumerations *)

(** X1: looking a member up by its value inverts taking the value of a
    member, for both enumerations: a string names a member exactly when it
    is that member's value, so the values are distinct and every other
    string names none. *)
Theorem enum_of_value_inverts_value :
  (∀ s a, AlertType_of_value s = Some a ↔ AlertType_value a = s)
  ∧ (∀ s a, AlertStatus_of_value s = Some a ↔ AlertStatus_value a = s).
Proof.
  split; intros s a; split.
  - cbv [AlertType_of_value AlertType_members List.find AlertType_value].
    repeat match goal with
           | |- context [String.eqb ?x s] => destruct (String.eqb_spec x s)
           end; intros H; by simplify_eq.
  - intros <-. by destruct a.
  - cbv [AlertStatus_of_value AlertStatus_members List.find AlertStatus_value].
    repeat match goal with
           | |- context [String.eqb ?x s] => destruct (String.eqb_spec x s)
           end; intros H; by simplify_eq.
  - intros <-. by destruct a.
Qed.

(** ** Names *)

(** X2: no name is declared twice: class names are distinct, table names
    are distinct, and within a class the field names and the relationship
    attributes are all different, so no declaration overrides another. *)
Theorem declared_names_distinct :
  NoDup (cls_name <$> models)
  ∧ NoDup (omap tablename models)
  ∧ Forall (fun m => NoDup ((name <$> fields m) ++ (attr <$> relationships m)))
      models.
Proof.
  repeat split; apply (bool_decide_unpack _); vm_compute; exact I.
Qed.

(** ** Keys *)

Lemma ty_eqb_eq (a b : ty) : ty_eqb a b = true → a = b.
Proof.
  revert b. induction a; destruct b; simpl; try done.
  - intros H. f_equal. by apply IHa.
  - intros H. f_equal. by apply IHa.
  - intros H. apply andb_true_iff in H as [H1 H2].
    f_equal; [by apply IHa1|by apply IHa2].
Qed.

Lemma forall_relationships (ms : list Model)
    (P : Model → RelationshipInfo → bool) :
  forallb (fun m => forallb (P m) (relationships m)) ms = true →
  ∀ m r, m ∈ ms → r ∈ relationships m → P m r = true.
Proof.
  intros H m r Hm Hr.
  rewrite forallb_forall in H.
  apply list_elem_of_In in Hm. apply list_elem_of_In in Hr.
  specialize (H m Hm). rewrite forallb_forall in H. by apply H.
Qed.

(** X3: every foreign key resolves: it names the table of a persistent
    class and, in it, the column [id], which is that class's primary key;
    the field that carries it belongs to a table, is an [int] and is
    required. *)
Theorem foreign_keys_resolve (m : Model) (f : FieldInfo) (fk : string) :
  m ∈ models → f ∈ fields m → field_foreign_key f = Some fk →
  ∃ m' pk,
    foreign_key_target fk = Some (m', pk)
    ∧ table m' = true ∧ name pk = "id" ∧ field_primary_key pk = true
    ∧ table m = true ∧ annotation f = TInt ∧ required f = true.
Proof.
  intros Hm Hf Hfk.
  pose proof (forall_fields models
    (fun m f =>
       match field_foreign_key f with
       | Some fk =>
           match foreign_key_target fk with
           | Some (m', pk) =>
               table m' && String.eqb (name pk) "id" && field_primary_key pk
               && table m && ty_eqb (annotation f) TInt && required f
           | None => false
           end
       | None => true
       end) eq_refl m f Hm Hf) as H.
  simpl in H. rewrite Hfk in H.
  destruct (foreign_key_target fk) as [[m' pk]|]; [|done].
  repeat (apply andb_true_iff in H as [H ?]).
  exists m', pk. repeat split; try done.
  - by apply String.eqb_eq.
  - by apply ty_eqb_eq.
Qed.

Lemma foreign_keys_resolve_witness :
  ∃ m' pk,
    foreign_key_target "portfolio_holdings.id" = Some (m', pk)
    ∧ table m' = true ∧ name pk = "id" ∧ field_primary_key pk = true
    ∧ table Transaction = true
    ∧ annotation (Field "holding_id" TInt [foreign_key "portfolio_holdings.id"])
      = TInt
    ∧ required (Field "holding_id" TInt [foreign_key "portfolio_holdings.id"])
      = true.
Proof.
  apply (foreign_keys_resolve Transaction
           (Field "holding_id" TInt [foreign_key "portfolio_holdings.id"])).
  - unfold models. elem_of_list.
  - unfold Transaction, fields. elem_of_list.
  - reflexivity.
Defined.

(** X4: relationships come in pairs: the target class exists and declares
    the attribute that [back_populates] names, which points back to this
    class and to this attribute; one side of the pair is a list and the
    other a single object, and the class on the single side holds a foreign
    key to the table of the class on the list side. *)
Theorem relationships_are_paired (m : Model) (r : RelationshipInfo) :
  m ∈ models → r ∈ relationships m →
  ∃ m' r' one many t,
    other_side r = Some (m', r')
    ∧ target r' = cls_name m ∧ back_populates r' = attr r
    ∧ to_many r' = negb (to_many r)
    ∧ (one, many) = (if to_many r then (m', m) else (m, m'))
    ∧ tablename many = Some t ∧ t ∈ referenced_tables one.
Proof.
  intros Hm Hr.
  pose proof (forall_relationships models
    (fun m r =>
       match other_side r with
       | Some (m', r') =>
           String.eqb (target r') (cls_name m)
           && String.eqb (back_populates r') (attr r)
           && Bool.eqb (to_many r') (negb (to_many r))
           && match tablename (if to_many r then m else m') with
              | Some t =>
                  existsb (String.eqb t)
                    (referenced_tables (if to_many r then m' else m))
              | None => false
              end
       | None => false
       end) eq_refl m r Hm Hr) as H.
  simpl in H.
  destruct (other_side r) as [[m' r']|]; [|done].
  repeat (apply andb_true_iff in H as [H ?]).
  destruct (tablename (if to_many r then m else m')) as [t|] eqn:Ht; [|done].
  exists m', r', (if to_many r then m' else m), (if to_many r then m else m'), t.
  repeat split.
  - by apply String.eqb_eq.
  - by apply String.eqb_eq.
  - by apply Bool.eqb_prop.
  - by destruct (to_many r).
  - done.
  - match goal with
    | Hex : existsb _ _ = true |- _ =>
        apply existsb_exists in Hex as (t' & Hin & Heq)
    end.
    apply String.eqb_eq in Heq as <-. by apply list_elem_of_In.
Qed.

Lemma relationships_are_paired_witness :
  ∃ m' r' one many t,
    other_side (Relationship "portfolios" true "Portfolio" "user") = Some (m', r')
    ∧ target r' = "User" ∧ back_populates r' = "portfolios"
    ∧ to_many r' = false
    ∧ (one, many) = (m', User)
    ∧ tablename many = Some t ∧ t ∈ referenced_tables one.
Proof.
  apply (relationships_are_paired User
           (Relationship "portfolios" true "Portfolio" "user")).
  - unfold models. elem_of_list.
  - unfold User, relationships. elem_of_list.
Defined.

(** X5: the storage keywords sit on tables only.  A persistent class has a
    table name and exactly one primary key, [id: Optional[int]] with default
    [None]; a plain schema has no table name, no relationship and no field
    with [primary_key], [foreign_key], [unique], [index] or [sa_column]. *)
Theorem storage_keywords_on_tables_only (m : Model) :
  m ∈ models →
  if table m then
    is_Some (tablename m)
    ∧ List.filter field_primary_key (fields m)
      = [Field "id" (TOptional TInt) [default VNone; primary_key true]]
  else
    tablename m = None ∧ relationships m = []
    ∧ Forall (fun f =>
                Forall (fun a =>
                          match a with
                          | primary_key _ | foreign_key _ | unique _ | index _
                          | sa_column_JSON => False
                          | _ => True
                          end) (args f)) (fields m).
Proof.
  intros Hm. unfold models in Hm.
  repeat (apply elem_of_cons in Hm as [->|Hm]);
    try (by apply elem_of_nil in Hm);
    simpl; (split; [by eauto|]); try reflexivity;
    (split; [reflexivity|]); repeat constructor.
Qed.

Lemma storage_keywords_on_tables_only_witness :
  tablename StockQuote = None ∧ relationships StockQuote = []
  ∧ Forall (fun f =>
              Forall (fun a =>
                        match a with
                        | primary_key _ | foreign_key _ | unique _ | index _
                        | sa_column_JSON => False
                        | _ => True
                        end) (args f)) (fields StockQuote).
Proof.
  apply (storage_keywords_on_tables_only StockQuote).
  unfold models. elem_of_list.
Defined.

(** ** Validated values *)

Lemma conform_idem (t : ty) (v v' : value) :
  conform t v = Some v' → conform t v' = Some v'.
Proof.
  revert v v'. induction t as [| | | | | | | |t IH|t IH|k IHk t IH];
    intros v v' H; simpl in *.
  - destruct v; by simplify_eq.
  - destruct v; by simplify_eq.
  - destruct v; by simplify_eq.
  - destruct v; by simplify_eq.
  - destruct v; by simplify_eq.
  - destruct v; try done; [|by simplify_eq].
    destruct (AlertType_of_value s); simpl in *; by simplify_eq.
  - destruct v; try done; [|by simplify_eq].
    destruct (AlertStatus_of_value s); simpl in *; by simplify_eq.
  - by simplify_eq.
  - destruct v; simplify_eq; try done;
      (apply IH in H; destruct v'; by simplify_eq).
  - destruct v as [| | | | | | | |l|]; try done.
    destruct (mapM (conform t) l) as [l'|] eqn:E; [|done].
    injection H as <-.
    apply mapM_Some_1 in E.
    assert (mapM (conform t) l' = Some l') as ->; [|done].
    apply mapM_Some_2.
    induction E as [|x y l l' Hxy _ IHE]; constructor; eauto.
  - destruct v as [| | | | | | | | |d]; try done.
    destruct (mapM (fun kv => pair kv.1 <$> conform t kv.2) d) as [d'|] eqn:E;
      [|done].
    injection H as <-.
    apply mapM_Some_1 in E.
    assert (mapM (fun kv => pair kv.1 <$> conform t kv.2) d' = Some d') as ->;
      [|done].
    apply mapM_Some_2.
    induction E as [|x y l l' Hxy _ IHE]; constructor; [|done].
    destruct x as [kx vx], y as [ky vy]. simpl in *.
    destruct (conform t vx) as [w|] eqn:Ew; simpl in *; simplify_eq.
    by rewrite (IH _ _ Ew).
Qed.

(** A value that came out of the validation of a field is accepted by that
    field as it is. *)
Lemma validate_field_idem (f : FieldInfo) (v v' : value) :
  validate_field f v = inr v' → validate_field f v' = inr v'.
Proof.
  unfold validate_field.
  destruct (conform (annotation f) v) as [w|] eqn:E; [|done].
  destruct (check_constraints f w) eqn:C; [done|].
  intros [= <-]. by rewrite (conform_idem _ _ _ E), C.
Qed.

(** Validation reads no more than these four things of a declaration. *)
Lemma validate_field_ext (f g : FieldInfo) (v : value) :
  annotation f = annotation g →
  field_max_length f = field_max_length g →
  field_regex f = field_regex g →
  field_decimal_places f = field_decimal_places g →
  validate_field f v = validate_field g v.
Proof.
  intros Ha Hm _ Hd. unfold validate_field, check_constraints.
  by rewrite Ha, Hm, Hd.
Qed.

(** Every declared default is a value its own field accepts unchanged. *)
Lemma default_valid (m : Model) (f : FieldInfo) (now : Z) (d : value) :
  m ∈ models → f ∈ fields m → field_default now f = Some d →
  validate_field f d = inr d.
Proof.
  intros Hm Hf Hd. unfold models in Hm.
  repeat (apply elem_of_cons in Hm as [->|Hm]);
    try (by apply elem_of_nil in Hm);
    cbn [fields] in Hf;
    match type of Hf with
    | f ∈ fields ?M => unfold M in Hf; cbn [fields] in Hf
    end;
    repeat (apply elem_of_cons in Hf as [->|Hf]);
    try (by apply elem_of_nil in Hf);
    cbv in Hd; simplify_eq; reflexivity.
Qed.

Section Validated.
Variable now : Z.
Variable data : gmap string value.

(** The attributes of an instance are validated values. *)
Lemma validated_attribute (m : Model) (r : gmap string value) (f : FieldInfo) :
  m ∈ models → validate m now data = inr r → f ∈ fields m →
  ∃ v', r !! name f = Some v' ∧ validate_field f v' = inr v'.
Proof.
  intros Hm Hr Hf. apply validate_inr in Hr.
  pose proof (field_names_NoDup m Hm) as Hnd.
  assert (r = (validate_fields (fields m) now data).2) as ->
    by (by rewrite Hr).
  destruct (data !! name f) as [v|] eqn:Hv.
  - destruct (validate_field f v) as [e|v'] eqn:Hfv.
    + pose proof (validate_fields_invalid now data _ _ _ _ Hf Hv Hfv) as He.
      rewrite Hr in He. by apply elem_of_nil in He.
    + exists v'. split; [by eapply validate_fields_supplied|].
      by eapply validate_field_idem.
  - destruct (field_default now f) as [d|] eqn:Hd.
    + exists d. split; [by apply validate_fields_default|].
      by eapply default_valid.
    + pose proof (validate_fields_missing now data _ _ Hf Hv Hd) as He.
      rewrite Hr in He. by apply elem_of_nil in He.
Qed.

(** Keyword data that holds, for each field, either a value the field
    accepts as it is or nothing where a default is declared, builds an
    instance that keeps every supplied value. *)
Lemma validate_fields_accepts (fs : list FieldInfo) :
  NoDup (name <$> fs) →
  (∀ f, f ∈ fs →
     (∃ v, data !! name f = Some v ∧ validate_field f v = inr v)
     ∨ (data !! name f = None ∧ is_Some (field_default now f))) →
  (validate_fields fs now data).1 = []
  ∧ ∀ f v, f ∈ fs → data !! name f = Some v →
      (validate_fields fs now data).2 !! name f = Some v.
Proof.
  intros Hnd Hall. split.
  - clear Hnd. induction fs as [|g fs IH]; [done|].
    rewrite validate_fields_cons.
    destruct (validate_fields fs now data) as [errs obj].
    simpl in IH. rewrite IH by (intros f Hf; apply Hall; by right).
    destruct (Hall g) as [(v & -> & ->)|[-> [d ->]]]; [left|done..].
  - intros f v Hf Hv.
    destruct (Hall f Hf) as [(w & Hw & Hok)|[Hno _]]; [|congruence].
    assert (w = v) as -> by congruence.
    by eapply validate_fields_supplied.
Qed.
End Validated.



(** ** Lengths *)

(** X7: the length bound of every field that declares [max_length]: a
    string longer than the bound is always rejected, with the length error;
    a string within the bound is accepted unchanged by every such field but
    [User.email], the only one that also declares a pattern. *)
Theorem max_length_bound (m : Model) (f : FieldInfo) (n : nat) (s : string) :
  m ∈ models → f ∈ fields m → field_max_length f = Some n →
  ((n < String.length s)%nat →
     validate_field f (VStr s) = inl (any_str_max_length n))
  ∧ ((String.length s ≤ n)%nat →
       (cls_name m, name f) ≠ ("User", "email") →
       validate_field f (VStr s) = inr (VStr s)).
Proof.
  intros Hm Hf Hn.
  pose proof (forall_fields models
    (fun m f =>
       match field_max_length f with
       | Some _ => ty_eqb (strip_optional (annotation f)) TStr
       | None => true
       end) eq_refl m f Hm Hf) as Hty.
  simpl in Hty. rewrite Hn in Hty. apply ty_eqb_eq in Hty.
  assert (conform (annotation f) (VStr s) = Some (VStr s)) as Hc.
  { destruct (annotation f); simpl in Hty; by simplify_eq. }
  unfold validate_field, check_constraints. rewrite Hc, Hn. split.
  - intros Hlen. by destruct (Nat.ltb_spec n (String.length s)); [|lia].
  - intros Hlen _. by destruct (Nat.ltb_spec n (String.length s)); [lia|].
Qed.

Lemma max_length_bound_witness :
  validate_field (Field "symbol" TStr [max_length 10; unique true; index true])
    (VStr "BRK.B.CLASSB") = inl (any_str_max_length 10)
  ∧ validate_field (Field "symbol" TStr [max_length 10; unique true; index true])
      (VStr "BRK.B") = inr (VStr "BRK.B").
Proof.
  split.
  - apply (max_length_bound Stock _ 10 "BRK.B.CLASSB");
      [unfold models; elem_of_list|unfold Stock, fields; elem_of_list
      |reflexivity|simpl; lia].
  - apply (max_length_bound Stock _ 10 "BRK.B");
      [unfold models; elem_of_list|unfold Stock, fields; elem_of_list
      |reflexivity|simpl; lia|done].
Defined.

(** ** Update shapes against their entities *)

Lemma find_field_Some (m : Model) (n : string) (g : FieldInfo) :
  find_field m n = Some g → g ∈ fields m ∧ name g = n.
Proof.
  unfold find_field. intros H. apply find_some in H as [Hin Heq].
  split; [by apply list_elem_of_In|by apply String.eqb_eq].
Qed.

Lemma check_constraints_ext (f g : FieldInfo) (v : value) :
  field_max_length f = field_max_length g →
  field_decimal_places f = field_decimal_places g →
  check_constraints f v = check_constraints g v.
Proof. intros Hm Hd. unfold check_constraints. by rewrite Hm, Hd. Qed.

(** X8: every field of an Update shape mirrors a field of its entity: the
    entity declares a field of that name which is neither a primary nor a
    foreign key nor a timestamp; the update field has its annotation made
    optional, [None] as default, and the same [max_length] and
    [decimal_places], so a value other than [None] that the update field
    accepts is accepted unchanged by the entity's field. *)
Theorem update_fields_mirror_entity (u e : Model) (f : FieldInfo) (now : Z) :
  u ∈ update_shapes → entity_of u = Some e → f ∈ fields u →
  ∃ g, find_field e (name f) = Some g
    ∧ table e = true
    ∧ annotation f = TOptional (strip_optional (annotation g))
    ∧ strip_optional (annotation g) ≠ TDatetime
    ∧ field_max_length f = field_max_length g
    ∧ field_decimal_places f = field_decimal_places g
    ∧ field_default now f = Some VNone
    ∧ field_primary_key g = false ∧ field_foreign_key g = None
    ∧ ∀ v v', validate_field f v = inr v' → v' ≠ VNone →
        validate_field g v' = inr v'.
Proof.
  intros Hu He Hf.
  assert (table e = true ∧ mirrors now e f = true) as (Ht & Hmir).
  { rewrite update_shapes_eq in Hu.
    repeat (apply elem_of_cons in Hu as [->|Hu]);
      try (by apply elem_of_nil in Hu);
      vm_compute in He; injection He as <-;
      match type of Hf with
      | f ∈ fields ?M => unfold M in Hf; cbn [fields] in Hf
      end;
      repeat (apply elem_of_cons in Hf as [->|Hf]);
      try (by apply elem_of_nil in Hf);
      split; reflexivity. }
  unfold mirrors in Hmir.
  destruct (find_field e (name f)) as [g|] eqn:Hg; [|done].
  repeat (apply andb_true_iff in Hmir as [Hmir ?]).
  repeat match goal with
         | H : bool_decide _ = true |- _ => apply bool_decide_eq_true in H
         | H : negb _ = true |- _ => apply negb_true_iff in H
         end.
  apply ty_eqb_eq in Hmir.
  exists g. repeat split; try done.
  - intros Heq. rewrite Heq in *. done.
  - by destruct (field_default now f) as [[]|].
  - intros v v' Hv Hnone.
    unfold validate_field in *. rewrite Hmir in Hv.
    destruct (conform (TOptional (strip_optional (annotation g))) v)
      as [w|] eqn:Hc; [|done].
    destruct (check_constraints f w) eqn:Hcheck; [done|].
    injection Hv as ->.
    assert (conform (annotation g) v' = Some v') as ->.
    { apply conform_idem in Hc.
      destruct (annotation g); simpl in *; try done; by destruct v'. }
    rewrite <- (check_constraints_ext f g v') by done.
    by rewrite Hcheck.
Qed.

Lemma update_fields_mirror_entity_witness :
  ∃ g, find_field User "username" = Some g
    ∧ table User = true
    ∧ TOptional TStr = TOptional (strip_optional (annotation g))
    ∧ strip_optional (annotation g) ≠ TDatetime
    ∧ Some 50%nat = field_max_length g
    ∧ None = field_decimal_places g
    ∧ field_default 0
        (Field "username" (TOptional TStr) [default VNone; max_length 50])
      = Some VNone
    ∧ field_primary_key g = false ∧ field_foreign_key g = None
    ∧ ∀ v v',
        validate_field
          (Field "username" (TOptional TStr) [default VNone; max_length 50]) v
        = inr v' → v' ≠ VNone →
        validate_field g v' = inr v'.
Proof.
  apply (update_fields_mirror_entity UserUpdate User
           (Field "username" (TOptional TStr) [default VNone; max_length 50]) 0).
  - rewrite update_shapes_eq. elem_of_list.
  - reflexivity.
  - unfold UserUpdate, fields. elem_of_list.
Defined.

(** ** Create shapes against their entities *)

Lemma not_required_default (g : FieldInfo) (now : Z) :
  required g = false → is_Some (field_default now g).
Proof.
  unfold required. intros H.
  destruct (field_default now g) eqn:Hd; [by eauto|].
  by rewrite (field_default_clock g now 0 Hd) in H.
Qed.

Lemma find_field_None (m : Model) (n : string) :
  find_field m n = None → ∀ f, f ∈ fields m → name f ≠ n.
Proof.
  unfold find_field. intros H f Hf Heq.
  apply list_elem_of_In in Hf.
  pose proof (find_none _ _ H f Hf) as Hn. simpl in Hn.
  by rewrite Heq, String.eqb_refl in Hn.
Qed.

Lemma has_field_find (m : Model) (n : string) :
  has_field m n = true → ∃ g, g ∈ fields m ∧ name g = n.
Proof.
  unfold has_field. intros H.
  apply existsb_exists in H as (g & Hin & Heq).
  exists g. split; [by apply list_elem_of_In|by apply String.eqb_eq].
Qed.

(** An instance of a shape that feeds an entity is keyword data the entity
    accepts, and the entity keeps every attribute of the instance. *)
Lemma feeds_builds (c e : Model) (now now' : Z) (kwargs uc : gmap string value) :
  c ∈ models → e ∈ models → feeds c e = true →
  validate c now kwargs = inr uc →
  ∃ r, validate e now' uc = inr r ∧ ∀ k v, uc !! k = Some v → r !! k = Some v.
Proof.
  intros Hc He Hfeeds Huc.
  apply andb_true_iff in Hfeeds as [Hent Hshape].
  rewrite forallb_forall in Hent. rewrite forallb_forall in Hshape.
  destruct (validate_fields_accepts now' uc (fields e) (field_names_NoDup e He))
    as [Herr Hkeep].
  { intros g Hg. specialize (Hent g (proj1 (list_elem_of_In _ _) Hg)).
    simpl in Hent.
    destruct (find_field c (name g)) as [f|] eqn:Hf.
    - left. apply find_field_Some in Hf as [Hfin Hname].
      repeat (apply andb_true_iff in Hent as [Hent ?]).
      repeat match goal with
             | H : bool_decide _ = true |- _ => apply bool_decide_eq_true in H
             end.
      apply ty_eqb_eq in Hent.
      destruct (validated_attribute now kwargs c uc f Hc Huc Hfin)
        as (v & Hv & Hok).
      exists v. rewrite <- Hname. split; [done|].
      by rewrite <- (validate_field_ext f g).
    - right. split; [|by apply not_required_default, negb_true_iff].
      apply validate_inr in Huc.
      assert (uc = (validate_fields (fields c) now kwargs).2) as ->
        by (by rewrite Huc).
      apply validate_fields_undeclared. by apply find_field_None. }
  eexists. split; [by apply validate_ok|].
  intros k v Hk.
  destruct (decide (k ∈ name <$> fields c)) as [Hin|Hout].
  - apply list_elem_of_fmap in Hin as (f & -> & Hf).
    destruct (has_field_find e (name f)) as (g & Hg & Hname).
    { apply Hshape. by apply list_elem_of_In. }
    rewrite <- Hname in *. by apply Hkeep.
  - apply validate_inr in Huc.
    assert (uc = (validate_fields (fields c) now kwargs).2) as Heq
      by (by rewrite Huc).
    rewrite Heq, validate_fields_undeclared in Hk; [done|].
    intros f Hf <-. apply Hout. by apply list_elem_of_fmap_2.
Qed.

(** X9: an instance of StockCreate, PortfolioCreate, PriceAlertCreate,
    WatchListCreate or StockPriceHistoryCreate is always valid keyword data
    for its entity: the entity is built, at any clock reading, and keeps
    every attribute of the Create instance. *)
Theorem create_instance_builds_entity (c e : Model) (now now' : Z)
    (kwargs uc : gmap string value) :
  c ∈ create_shapes → entity_of c = Some e →
  cls_name c ≠ "UserCreate" → cls_name c ≠ "TransactionCreate" →
  validate c now kwargs = inr uc →
  ∃ r, validate e now' uc = inr r ∧ ∀ k v, uc !! k = Some v → r !! k = Some v.
Proof.
  intros Hc He Hu Ht.
  rewrite create_shapes_eq in Hc.
  repeat (apply elem_of_cons in Hc as [->|Hc]);
    try (by apply elem_of_nil in Hc); try done;
    vm_compute in He; injection He as <-;
    apply feeds_builds; first [reflexivity | unfold models; elem_of_list].
Qed.

Lemma create_instance_builds_entity_witness :
  ∃ r, validate PriceAlert 9
         (validate_fields (fields PriceAlertCreate) 0
            (PriceAlert_above_150 1 2)).2 = inr r
       ∧ ∀ k v,
           (validate_fields (fields PriceAlertCreate) 0
              (PriceAlert_above_150 1 2)).2 !! k = Some v →
           r !! k = Some v.
Proof.
  apply (create_instance_builds_entity PriceAlertCreate PriceAlert 0 9
           (PriceAlert_above_150 1 2)).
  - rewrite create_shapes_eq. elem_of_list.
  - reflexivity.
  - done.
  - done.
  - apply validate_ok. by vm_compute.
Defined.

(** When some field is in error the result is the list of all errors. *)
Lemma validate_errors (m : Model) (now : Z) (kwargs : gmap string value) :
  (validate_fields (fields m) now kwargs).1 ≠ [] →
  validate m now kwargs = inl (validate_fields (fields m) now kwargs).1.
Proof.
  unfold validate.
  by destruct (validate_fields (fields m) now kwargs) as [[|e0 errs] obj].
Qed.

(** X10: an instance of TransactionCreate is never valid keyword data for
    Transaction: [total_amount], which the Create shape leaves out and the
    entity requires, is reported missing; and when [transaction_date] was
    omitted, the [None] the Create shape holds for it is refused by the
    entity's [datetime] field. *)
Theorem TransactionCreate_does_not_build_Transaction (now now' : Z)
    (kwargs tc : gmap string value) :
  validate TransactionCreate now kwargs = inr tc →
  ∃ errs,
    validate Transaction now' tc = inl errs
    ∧ ("total_amount", missing) ∈ errs
    ∧ (kwargs !! "transaction_date" = None →
       ("transaction_date", type_error) ∈ errs).
Proof.
  intros Htc. apply validate_inr in Htc.
  assert (tc = (validate_fields (fields TransactionCreate) now kwargs).2)
    as Heq by (by rewrite Htc).
  assert (("total_amount", missing)
          ∈ (validate_fields (fields Transaction) now' tc).1) as Hmiss.
  { apply (validate_fields_missing now' tc (fields Transaction)
             (Field "total_amount" TDecimal [decimal_places 2]));
      [unfold Transaction, fields; elem_of_list| |reflexivity].
    rewrite Heq. apply validate_fields_undeclared.
    intros f Hf. unfold TransactionCreate, fields in Hf.
    repeat (apply elem_of_cons in Hf as [->|Hf]); try done.
    by apply elem_of_nil in Hf. }
  exists (validate_fields (fields Transaction) now' tc).1.
  split; [|split; [done|]].
  { apply validate_errors. intros Hnil. rewrite Hnil in Hmiss.
    by apply elem_of_nil in Hmiss. }
  intros Hdate.
  apply (validate_fields_invalid now' tc (fields Transaction)
           (Field "transaction_date" TDatetime [default_factory_utcnow]) VNone);
    [unfold Transaction, fields; elem_of_list| |done].
  rewrite Heq.
  apply (validate_fields_default now kwargs (fields TransactionCreate)
           (Field "transaction_date" (TOptional TDatetime) [default VNone]));
    [|unfold TransactionCreate, fields; elem_of_list|done|done].
  apply field_names_NoDup. unfold models. elem_of_list.
Qed.

Lemma TransactionCreate_does_not_build_Transaction_witness :
  ∃ errs,
    validate Transaction 9
      (validate_fields (fields TransactionCreate) 0 HOLD_Transaction).2
    = inl errs
    ∧ ("total_amount", missing) ∈ errs
    ∧ (HOLD_Transaction !! "transaction_date" = None →
       ("transaction_date", type_error) ∈ errs).
Proof.
  apply (TransactionCreate_does_not_build_Transaction 0 9 HOLD_Transaction).
  apply validate_ok. by vm_compute.
Defined.

(** ** Views *)




(** ** Decimal places *)


